(** * Ingoo storefront: the Home page controller (frontend/src/pages/Home.jsx)

    A shallow embedding of the filter state, the products request, the
    debounced refetch, the response handling and the store-hours banner of
    [Home.jsx], together with the catalog query contract of the backend.

    The page is a React function component.  Its state lives in [useState]
    cells, every event handler runs to completion, React commits the state
    the handler set in one render, and the effects whose dependencies changed
    run after that render.  The embedding threads one [Page] value through
    handlers, commits, timers and responses. *)

From Stdlib Require Import ZArith List String Ascii Bool Lia QArith DecimalString.
From Stdlib Require DecimalPos.
Import ListNotations.
Local Open Scope string_scope.
Local Open Scope Z_scope.
Local Open Scope list_scope.

(** ** JavaScript built-ins used by the page *)

Module JS.

(** [if (s)] on a string: the empty string is falsy. *)
Definition truthy (s : string) : bool :=
  match s with
  | EmptyString => false
  | String _ _ => true
  end.

(** [if (v)] on a value that is [null] or a string. *)
Definition truthy_opt (v : option string) : bool :=
  match v with
  | None => false
  | Some s => truthy s
  end.

(** [a === b] on strings. *)
Definition strict_eq (a b : string) : bool := String.eqb a b.

(** [a === b] where [a] is [null] or a string and [b] is a string. *)
Definition strict_eq_opt (a : option string) (b : string) : bool :=
  match a with
  | None => false
  | Some s => String.eqb s b
  end.

(** [Object.is] on values that are [null] or a string. *)
Definition same_opt (a b : option string) : bool :=
  match a, b with
  | None, None => true
  | Some x, Some y => String.eqb x y
  | _, _ => false
  end.

Definition Math_max (a b : Z) : Z := Z.max a b.
Definition Math_min (a b : Z) : Z := Z.min a b.

(** [String(n)] for an integer [n], as [URLSearchParams.append] applies it
    to a number. *)
Definition string_of_number (n : Z) : string :=
  NilZero.string_of_int (Z.to_int n).

(** White space skipped by [parseInt] (the ASCII part of
    StrWhiteSpaceChar: TAB, LF, VT, FF, CR, SP). *)
Definition is_white (c : ascii) : bool :=
  match nat_of_ascii c with
  | 9%nat | 10%nat | 11%nat | 12%nat | 13%nat | 32%nat => true
  | _ => false
  end.

Fixpoint trim_start (s : string) : string :=
  match s with
  | String c r => if is_white c then trim_start r else s
  | EmptyString => s
  end.

(** Value of a character as a digit (0-9, a-z, A-Z). *)
Definition digit_value (c : ascii) : option Z :=
  let n := Z.of_nat (nat_of_ascii c) in
  if ((48 <=? n) && (n <=? 57))%Z then Some (n - 48)
  else if ((97 <=? n) && (n <=? 122))%Z then Some (n - 87)
  else if ((65 <=? n) && (n <=? 90))%Z then Some (n - 55)
  else None.

(** The longest prefix of radix-[R] digits, as a number; [acc] is [None]
    until a digit has been read. *)
Fixpoint read_digits (R : Z) (s : string) (acc : option Z) : option Z :=
  match s with
  | EmptyString => acc
  | String c r =>
      match digit_value c with
      | Some d =>
          if (d <? R)%Z
          then read_digits R r (Some (match acc with
                                      | Some a => a * R + d
                                      | None => d
                                      end))
          else acc
      | None => acc
      end
  end.

Definition strip_sign (s : string) : Z * string :=
  match s with
  | String "-" r => (-1, r)
  | String "+" r => (1, r)
  | _ => (1, s)
  end.

Definition strip_hex_prefix (s : string) : Z * string :=
  match s with
  | String "0" (String "x" r) => (16, r)
  | String "0" (String "X" r) => (16, r)
  | _ => (10, s)
  end.

(** [parseInt(s)] without a radix; [None] is NaN.  The result is the exact
    integer: a double that rounds a longer digit string stays on the same
    side of every bound the page compares it with (all at most 10000). *)
Definition parseInt (s : string) : option Z :=
  let '(sign, s1) := strip_sign (trim_start s) in
  let '(R, s2) := strip_hex_prefix s1 in
  match read_digits R s2 None with
  | Some m => Some (sign * m)
  | None => None
  end.

End JS.

(** ** Filter state *)

(** The [priceRange] cell holds an array [[lo, hi]].  React compares state
    and effect dependencies with [Object.is], which on arrays is identity of
    the object, so each array carries the allocation it came from. *)
Record PriceRange := mkRange {
  pr_ref : nat;
  pr_lo : Z;
  pr_hi : Z
}.

(** The five [useState] cells the debounce effect depends on. *)
Record Filters := mkFilters {
  searchQuery : string;
  selectedCategory : option string;
  priceRange : PriceRange;
  stockStatus : option string;
  sortBy : string
}.

(** A query string as [URLSearchParams] holds it: name/value pairs in
    insertion order. *)
Definition Params := list (string * string).

Definition append (name value : string) (p : Params) : Params :=
  p ++ [(name, value)].

Definition append_if (c : bool) (name value : string) (p : Params) : Params :=
  if c then append name value p else p.

Definition opt_text (v : option string) : string :=
  match v with
  | Some s => s
  | None => ""
  end.

(** The parameters [fetchProducts] builds (Home.jsx lines 71-77). *)
Definition build_params (f : Filters) : Params :=
  let params := [] in
  let params := append_if (JS.truthy (searchQuery f)) "search" (searchQuery f) params in
  let params := append_if (JS.truthy_opt (selectedCategory f))
                          "category" (opt_text (selectedCategory f)) params in
  let params := append "min_price" (JS.string_of_number (pr_lo (priceRange f))) params in
  let params := append "max_price" (JS.string_of_number (pr_hi (priceRange f))) params in
  let params := append_if (JS.truthy_opt (stockStatus f))
                          "stock_status" (opt_text (stockStatus f)) params in
  let params := append_if (JS.truthy (sortBy f)) "sort_by" (sortBy f) params in
  params.

(** [params.get(name)]: the first value stored under [name]. *)
Definition get (name : string) (p : Params) : option string :=
  match find (fun kv => String.eqb (fst kv) name) p with
  | Some kv => Some (snd kv)
  | None => None
  end.

(** The names in a query string, in order. *)
Definition names (p : Params) : list string := map fst p.

(** The parameter names of [GET /api/products]. *)
Definition known_names : list string :=
  ["search"; "category"; "min_price"; "max_price"; "stock_status"; "sort_by"].

(** ** The page *)

(** A product as the API returns it (spec, data model). *)
Record Product := mkProduct {
  p_id : Z;
  p_name : string;
  p_description : string;
  p_price : Q;
  p_stock : Z;
  p_category : string;
  p_image : string;
  p_created : Z
}.

(** A pending [setTimeout].  The callback [() => { fetchProducts(); }] closes
    over the [fetchProducts] of the render that ran the effect, and that
    function reads the filter cells of the same render: [tm_env]. *)
Record Timer := mkTimer {
  tm_id : nat;
  tm_due : Z;
  tm_env : Filters
}.

(** A [GET /api/products] the page has issued. *)
Record Request := mkRequest {
  rq_id : nat;
  rq_time : Z;
  rq_query : Params
}.

Record Page := mkPage {
  filters : Filters;
  products : list Product;
  loading : bool;
  showFilters : bool;
  toasts : list string;        (* messages passed to [toast.error] *)
  debounce : option nat;       (* timer id held by the effect's cleanup *)
  timers : list Timer;         (* the host's table of pending timers *)
  next_timer : nat;
  inflight : list nat;         (* requests whose promise has not settled *)
  next_req : nat;
  requests : list Request;     (* every products request issued, oldest first *)
  next_ref : nat;              (* next array allocation *)
  now : Z
}.

Definition with_filters (f : Filters) (pg : Page) : Page :=
  mkPage f (products pg) (loading pg) (showFilters pg) (toasts pg)
         (debounce pg) (timers pg) (next_timer pg) (inflight pg) (next_req pg)
         (requests pg) (next_ref pg) (now pg).

Definition with_products (ps : list Product) (pg : Page) : Page :=
  mkPage (filters pg) ps (loading pg) (showFilters pg) (toasts pg)
         (debounce pg) (timers pg) (next_timer pg) (inflight pg) (next_req pg)
         (requests pg) (next_ref pg) (now pg).

Definition with_loading (b : bool) (pg : Page) : Page :=
  mkPage (filters pg) (products pg) b (showFilters pg) (toasts pg)
         (debounce pg) (timers pg) (next_timer pg) (inflight pg) (next_req pg)
         (requests pg) (next_ref pg) (now pg).

Definition with_showFilters (b : bool) (pg : Page) : Page :=
  mkPage (filters pg) (products pg) (loading pg) b (toasts pg)
         (debounce pg) (timers pg) (next_timer pg) (inflight pg) (next_req pg)
         (requests pg) (next_ref pg) (now pg).

Definition with_toasts (ts : list string) (pg : Page) : Page :=
  mkPage (filters pg) (products pg) (loading pg) (showFilters pg) ts
         (debounce pg) (timers pg) (next_timer pg) (inflight pg) (next_req pg)
         (requests pg) (next_ref pg) (now pg).

Definition with_debounce (d : option nat) (pg : Page) : Page :=
  mkPage (filters pg) (products pg) (loading pg) (showFilters pg) (toasts pg)
         d (timers pg) (next_timer pg) (inflight pg) (next_req pg)
         (requests pg) (next_ref pg) (now pg).

Definition with_timers (tms : list Timer) (pg : Page) : Page :=
  mkPage (filters pg) (products pg) (loading pg) (showFilters pg) (toasts pg)
         (debounce pg) tms (next_timer pg) (inflight pg) (next_req pg)
         (requests pg) (next_ref pg) (now pg).

Definition with_next_timer (n : nat) (pg : Page) : Page :=
  mkPage (filters pg) (products pg) (loading pg) (showFilters pg) (toasts pg)
         (debounce pg) (timers pg) n (inflight pg) (next_req pg)
         (requests pg) (next_ref pg) (now pg).

Definition with_inflight (rs : list nat) (pg : Page) : Page :=
  mkPage (filters pg) (products pg) (loading pg) (showFilters pg) (toasts pg)
         (debounce pg) (timers pg) (next_timer pg) rs (next_req pg)
         (requests pg) (next_ref pg) (now pg).

Definition with_next_req (n : nat) (pg : Page) : Page :=
  mkPage (filters pg) (products pg) (loading pg) (showFilters pg) (toasts pg)
         (debounce pg) (timers pg) (next_timer pg) (inflight pg) n
         (requests pg) (next_ref pg) (now pg).

Definition with_requests (rq : list Request) (pg : Page) : Page :=
  mkPage (filters pg) (products pg) (loading pg) (showFilters pg) (toasts pg)
         (debounce pg) (timers pg) (next_timer pg) (inflight pg) (next_req pg)
         rq (next_ref pg) (now pg).

Definition with_next_ref (n : nat) (pg : Page) : Page :=
  mkPage (filters pg) (products pg) (loading pg) (showFilters pg) (toasts pg)
         (debounce pg) (timers pg) (next_timer pg) (inflight pg) (next_req pg)
         (requests pg) n (now pg).

Definition with_now (t : Z) (pg : Page) : Page :=
  mkPage (filters pg) (products pg) (loading pg) (showFilters pg) (toasts pg)
         (debounce pg) (timers pg) (next_timer pg) (inflight pg) (next_req pg)
         (requests pg) (next_ref pg) t.

(** *** State setters of the filter cells *)

Definition setSearchQuery (s : string) (pg : Page) : Page :=
  let f := filters pg in
  with_filters (mkFilters s (selectedCategory f) (priceRange f) (stockStatus f) (sortBy f)) pg.

Definition setSelectedCategory (c : option string) (pg : Page) : Page :=
  let f := filters pg in
  with_filters (mkFilters (searchQuery f) c (priceRange f) (stockStatus f) (sortBy f)) pg.

Definition setPriceRange (r : PriceRange) (pg : Page) : Page :=
  let f := filters pg in
  with_filters (mkFilters (searchQuery f) (selectedCategory f) r (stockStatus f) (sortBy f)) pg.

Definition setStockStatus (v : option string) (pg : Page) : Page :=
  let f := filters pg in
  with_filters (mkFilters (searchQuery f) (selectedCategory f) (priceRange f) v (sortBy f)) pg.

Definition setSortBy (v : string) (pg : Page) : Page :=
  let f := filters pg in
  with_filters (mkFilters (searchQuery f) (selectedCategory f) (priceRange f) (stockStatus f) v) pg.

(** Evaluating an array literal [[lo, hi]] allocates a fresh array. *)
Definition new_array (lo hi : Z) (pg : Page) : PriceRange * Page :=
  (mkRange (next_ref pg) lo hi, with_next_ref (S (next_ref pg)) pg).

(** *** fetchProducts (lines 68-87) *)

Definition error_toast : string := "Failed to load products".

(** Up to the [await]: [setLoading(true)], the parameters, [axios.get]. *)
Definition fetchProducts (env : Filters) (pg : Page) : Page :=
  let pg := with_loading true pg in
  let params := build_params env in
  let r := next_req pg in
  let pg := with_requests (requests pg ++ [mkRequest r (now pg) params]) pg in
  let pg := with_inflight (inflight pg ++ [r]) pg in
  with_next_req (S r) pg.

(** How the promise of a request settles. *)
Inductive Outcome :=
| Fulfilled (data : list Product)
| Rejected.

Definition is_inflight (r : nat) (pg : Page) : bool :=
  existsb (Nat.eqb r) (inflight pg).

(** After the [await]: [setProducts(response.data)], or the [catch] branch;
    then [finally].  A request settles once. *)
Definition settle (r : nat) (o : Outcome) (pg : Page) : Page :=
  if is_inflight r pg then
    let pg := with_inflight (filter (fun x => negb (Nat.eqb x r)) (inflight pg)) pg in
    let pg := match o with
              | Fulfilled data => with_products data pg
              | Rejected => with_toasts (toasts pg ++ [error_toast]) pg
              end in
    with_loading false pg
  else pg.

(** *** The debounce effect (lines 89-94) *)

Definition debounce_delay : Z := 300.

(** The host's timer table without the timer [id]; nothing happens when the
    timer is no longer there. *)
Definition without_timer (id : nat) (pg : Page) : Page :=
  with_timers (filter (fun tm => negb (Nat.eqb (tm_id tm) id)) (timers pg)) pg.

Definition clearTimeout (id : nat) (pg : Page) : Page :=
  without_timer id pg.

Definition setTimeout (env : Filters) (delay : Z) (pg : Page) : nat * Page :=
  let id := next_timer pg in
  let pg := with_timers (timers pg ++ [mkTimer id (now pg + delay) env]) pg in
  (id, with_next_timer (S id) pg).

(** One run of the effect: the cleanup of the previous run, then the body. *)
Definition debounce_effect (pg : Page) : Page :=
  let pg := match debounce pg with
            | Some id => clearTimeout id pg
            | None => pg
            end in
  let '(id, pg) := setTimeout (filters pg) debounce_delay pg in
  with_debounce (Some id) pg.

(** The dependency array
    [[searchQuery, selectedCategory, priceRange, stockStatus, sortBy]]
    compared with [Object.is], entry by entry. *)
Definition deps_same (a b : Filters) : bool :=
  String.eqb (searchQuery a) (searchQuery b)
  && JS.same_opt (selectedCategory a) (selectedCategory b)
  && Nat.eqb (pr_ref (priceRange a)) (pr_ref (priceRange b))
  && JS.same_opt (stockStatus a) (stockStatus b)
  && String.eqb (sortBy a) (sortBy b).

(** React commits what a handler set in one render; the effect runs again
    when a dependency differs from the previous render's. *)
Definition commit (before : Filters) (pg : Page) : Page :=
  if deps_same before (filters pg) then pg else debounce_effect pg.

(** *** Event handlers *)

(** Search input [onChange] (line 250). *)
Definition onSearchChange (text : string) (pg : Page) : Page :=
  setSearchQuery text pg.

(** Clear-search button (line 258). *)
Definition onClearSearch (pg : Page) : Page :=
  setSearchQuery "" pg.

(** Filters button (line 267). *)
Definition onToggleFilters (pg : Page) : Page :=
  with_showFilters (negb (showFilters pg)) pg.

(** Category card [onClick] (line 288); [name] is [cat.name]. *)
Definition onCategoryClick (name : string) (pg : Page) : Page :=
  setSelectedCategory
    (if JS.strict_eq_opt (selectedCategory (filters pg)) name then None else Some name) pg.

(** Slider [onValueChange={setPriceRange}] (line 318): the slider hands over
    a new array. *)
Definition onSliderChange (lo hi : Z) (pg : Page) : Page :=
  let '(r, pg) := new_array lo hi pg in
  setPriceRange r pg.

(** Min-price input [onChange] (lines 330-335). *)
Definition onMinPriceChange (text : string) (pg : Page) : Page :=
  match JS.parseInt text with
  | None => pg                                  (* isNaN(value): return *)
  | Some value =>
      let hi := pr_hi (priceRange (filters pg)) in
      let clampedValue := JS.Math_max 0 (JS.Math_min value hi) in
      let '(r, pg) := new_array clampedValue hi pg in
      setPriceRange r pg
  end.

(** Max-price input [onChange] (lines 347-352). *)
Definition onMaxPriceChange (text : string) (pg : Page) : Page :=
  match JS.parseInt text with
  | None => pg                                  (* isNaN(value): return *)
  | Some value =>
      let lo := pr_lo (priceRange (filters pg)) in
      let clampedValue := JS.Math_max lo (JS.Math_min value 10000) in
      let '(r, pg) := new_array lo clampedValue pg in
      setPriceRange r pg
  end.

(** The four availability chips (lines 363-390). *)
Inductive StockChip := ChipAll | ChipInStock | ChipLowStock | ChipOutOfStock.

Definition chip_value (c : StockChip) : option string :=
  match c with
  | ChipAll => None
  | ChipInStock => Some "in_stock"
  | ChipLowStock => Some "low_stock"
  | ChipOutOfStock => Some "out_of_stock"
  end.

Definition onStockClick (c : StockChip) (pg : Page) : Page :=
  setStockStatus (chip_value c) pg.

(** The three [SelectItem]s of the sort [Select] (lines 402-404); the select
    calls [onValueChange={setSortBy}] with the value of the chosen item. *)
Inductive SortItem := ItemNewest | ItemPriceAsc | ItemPriceDesc.

Definition item_value (i : SortItem) : string :=
  match i with
  | ItemNewest => "newest"
  | ItemPriceAsc => "price_asc"
  | ItemPriceDesc => "price_desc"
  end.

Definition onSortChange (i : SortItem) (pg : Page) : Page :=
  setSortBy (item_value i) pg.

(** [resetFilters] (lines 103-109). *)
Definition resetFilters (pg : Page) : Page :=
  let pg := setSelectedCategory None pg in
  let '(r, pg) := new_array 0 10000 pg in
  let pg := setPriceRange r pg in
  let pg := setStockStatus None pg in
  let pg := setSortBy "newest" pg in
  setSearchQuery "" pg.

(** What the user can do to the page.  A control that is not rendered cannot
    be used; allowing every action in every state only adds states. *)
Inductive Action :=
| TypeSearch (text : string)
| ClearSearch
| ToggleFilters
| ClickCategory (name : string)
| MoveSlider (lo hi : Z)
| TypeMinPrice (text : string)
| TypeMaxPrice (text : string)
| ClickStock (c : StockChip)
| SelectSort (i : SortItem)
| ClickReset.

Definition handle (a : Action) (pg : Page) : Page :=
  match a with
  | TypeSearch text => onSearchChange text pg
  | ClearSearch => onClearSearch pg
  | ToggleFilters => onToggleFilters pg
  | ClickCategory name => onCategoryClick name pg
  | MoveSlider lo hi => onSliderChange lo hi pg
  | TypeMinPrice text => onMinPriceChange text pg
  | TypeMaxPrice text => onMaxPriceChange text pg
  | ClickStock c => onStockClick c pg
  | SelectSort i => onSortChange i pg
  | ClickReset => resetFilters pg
  end.

(** An action is a change when the handler leaves a dependency of the effect
    different from what the current render saw. *)
Definition changes (a : Action) (pg : Page) : bool :=
  negb (deps_same (filters pg) (filters (handle a pg))).

(** The handler, then the render and its effects. *)
Definition dispatch (a : Action) (pg : Page) : Page :=
  commit (filters pg) (handle a pg).

(** *** Mounting *)

Definition default_filters (ref : nat) : Filters :=
  mkFilters "" None (mkRange ref 0 10000) None "newest".

(** The [useState] initial values (lines 19-31). *)
Definition initial (t0 : Z) : Page :=
  mkPage (default_filters 0) [] true false [] None [] 0 [] 0 [] 1 t0.

(** After the first render both effects run: the mount effect (lines 34-38)
    calls [fetchProducts], the debounce effect arms its first timer.
    [checkAuth] and [fetchCategories] touch none of the state kept here. *)
Definition mount (t0 : Z) : Page :=
  let pg := initial t0 in
  let pg := fetchProducts (filters pg) pg in
  debounce_effect pg.

(** *** Time *)

(** A timer that is due leaves the table and runs its callback. *)
Definition fire (tm : Timer) (pg : Page) : Page :=
  let pg := without_timer (tm_id tm) pg in
  let pg := with_now (Z.max (now pg) (tm_due tm)) pg in
  fetchProducts (tm_env tm) pg.

Fixpoint insert_by_due (tm : Timer) (l : list Timer) : list Timer :=
  match l with
  | [] => [tm]
  | x :: r => if tm_due tm <=? tm_due x then tm :: l else x :: insert_by_due tm r
  end.

Definition by_due (l : list Timer) : list Timer :=
  fold_right insert_by_due [] l.

Definition due_timers (t : Z) (pg : Page) : list Timer :=
  by_due (filter (fun tm => tm_due tm <=? t) (timers pg)).

(** Let the clock reach [t]: the timers due by then fire, earliest first.
    A timer callback arms no timer, so one pass is enough. *)
Definition advance_to (t : Z) (pg : Page) : Page :=
  let pg := fold_left (fun s tm => fire tm s) (due_timers t pg) pg in
  with_now (Z.max (now pg) t) pg.

Inductive Event :=
| User (a : Action)
| Response (r : nat) (o : Outcome).

Definition step (e : Event) (pg : Page) : Page :=
  match e with
  | User a => dispatch a pg
  | Response r o => settle r o pg
  end.

(** An event at time [t]: timers due by [t] have fired before it. *)
Definition at_time (t : Z) (e : Event) (pg : Page) : Page :=
  step e (advance_to t pg).

Fixpoint run (schedule : list (Z * Event)) (pg : Page) : Page :=
  match schedule with
  | [] => pg
  | (t, e) :: rest => run rest (at_time t e pg)
  end.

(** The states the page can be in. *)
Inductive reachable : Page -> Prop :=
| reach_mount (t0 : Z) : reachable (mount t0)
| reach_event (t : Z) (e : Event) (pg : Page) :
    reachable pg -> reachable (at_time t e pg)
| reach_wait (t : Z) (pg : Page) :
    reachable pg -> reachable (advance_to t pg).

(** At most one debounce timer is pending, and it is the one the effect's
    cleanup holds. *)
Definition one_pending (pg : Page) : bool :=
  match timers pg with
  | [] => true
  | [tm] => match debounce pg with
            | Some id => Nat.eqb (tm_id tm) id
            | None => false
            end
  | _ => false
  end.

(** What holds of every reachable page: one debounce timer at most, and the
    price-range array in the state was allocated before the next one. *)
Definition well_formed (pg : Page) : Prop :=
  one_pending pg = true /\ (pr_ref (priceRange (filters pg)) < next_ref pg)%nat.

(** Two pages on which the clock has the same work to do: the same timers,
    the same requests issued so far, the same time. *)
Definition same_schedule (a b : Page) : Prop :=
  timers a = timers b /\ requests a = requests b /\
  now a = now b /\ next_req a = next_req b.

(** A page with two searches in flight.  Mounted at 0, its two first
    requests answered; the user types "d" at 1000, which is requested at
    1300, and "dr" at 1400, which is requested at 1700 while the request for
    "d" has not been answered. *)
Definition two_requests : Page :=
  advance_to 1700
    (run [(100, Response 0 (Fulfilled []));
          (350, Response 1 (Fulfilled []));
          (1000, User (TypeSearch "d"));
          (1400, User (TypeSearch "dr"))]
         (mount 0)).

(** The answer to the older request, for "d". *)
Definition stale_data : list Product :=
  [mkProduct 1 "Drill" "Cordless drill" 120 25 "Tools" "" 0;
   mkProduct 2 "Sander" "Orbital sander" 80 4 "Tools" "" 1].

(** The answer to the newer request, for "dr". *)
Definition fresh_data : list Product :=
  [mkProduct 1 "Drill" "Cordless drill" 120 25 "Tools" "" 0].

(** The requests issued, as (time, query) pairs. *)
Definition fetches (pg : Page) : list (Z * Params) :=
  map (fun rq => (rq_time rq, rq_query rq)) (requests pg).

(** The price-range invariant of the two price inputs. *)
Definition range_ok (r : PriceRange) : Prop :=
  0 <= pr_lo r /\ pr_lo r <= pr_hi r /\ pr_hi r <= 10000.

(** The values the availability chips and the sort select can store. *)
Definition stock_value_ok (v : option string) : Prop :=
  v = None \/ v = Some "in_stock" \/ v = Some "low_stock" \/ v = Some "out_of_stock".

Definition sort_value_ok (v : string) : Prop :=
  v = "newest" \/ v = "price_asc" \/ v = "price_desc".

(** The guard the spec asks of the design: of two requests in flight, the
    newer one's data is what the page shows once both have answered, in
    either order of arrival. *)
Definition newer_fetch_wins : Prop :=
  forall (pg : Page) (older newer : nat) (d_old d_new : list Product),
    reachable pg ->
    is_inflight older pg = true -> is_inflight newer pg = true ->
    (older < newer)%nat ->
    products (settle newer (Fulfilled d_new) (settle older (Fulfilled d_old) pg)) = d_new /\
    products (settle older (Fulfilled d_old) (settle newer (Fulfilled d_new) pg)) = d_new.

(** ** The store-hours banner (lines 135-172 and 201-238) *)

Section StoreHours.

(** [new Date()] is a timestamp in milliseconds since the epoch; the host's
    time zone gives the minutes local time is ahead of UTC at a timestamp. *)
Variable utcOffset : Z -> Z.

Definition localTime (now : Z) : Z := now + utcOffset now * 60000.

(** [now.getHours()]. *)
Definition getHours (now : Z) : Z := (localTime now / 3600000) mod 24.

(** [now.getDay()]: 0 is Sunday; 1 January 1970 was a Thursday. *)
Definition getDay (now : Z) : Z := (localTime now / 86400000 + 4) mod 7.

Definition days : list string :=
  ["Sunday"; "Monday"; "Tuesday"; "Wednesday"; "Thursday"; "Friday"; "Saturday"].

(** [days[i]]; out of range JavaScript yields [undefined]. *)
Definition day_name (i : Z) : string :=
  if i <? 0 then "undefined" else nth (Z.to_nat i) days "undefined".

Definition open_frame : string :=
  "bg-gradient-to-r from-orange-500/10 to-amber-500/10 border-orange-500/20".
Definition closed_frame : string :=
  "bg-gradient-to-r from-gray-500/5 to-gray-500/5 border-gray-500/20 opacity-50".

(** Desktop banner, frame classes (lines 135-143). *)
Definition desktop_frame (now : Z) : string :=
  let currentHour := getHours now in
  let isSunday := getDay now =? 0 in
  let isOpen := (isSunday && (currentHour >=? 8) && (currentHour <? 14))
                || (negb isSunday && (currentHour >=? 8) && (currentHour <? 20)) in
  if isOpen then open_frame else closed_frame.

(** Desktop banner, status dot (lines 145-151). *)
Definition desktop_dot (now : Z) : string :=
  let currentHour := getHours now in
  let isSunday := getDay now =? 0 in
  let isOpen := (isSunday && (currentHour >=? 8) && (currentHour <? 14))
                || (negb isSunday && (currentHour >=? 8) && (currentHour <? 20)) in
  if isOpen then "bg-green-500 animate-pulse" else "bg-red-500".

(** Desktop banner, text colour (lines 152-158). *)
Definition desktop_text (now : Z) : string :=
  let currentHour := getHours now in
  let isSunday := getDay now =? 0 in
  let isOpen := (isSunday && (currentHour >=? 8) && (currentHour <? 14))
                || (negb isSunday && (currentHour >=? 8) && (currentHour <? 20)) in
  if isOpen then "text-orange-400" else "text-gray-400".

(** Desktop banner, label (lines 159-166). *)
Definition desktop_label (now : Z) : string :=
  let currentHour := getHours now in
  let isSunday := getDay now =? 0 in
  let isOpen := (isSunday && (currentHour >=? 8) && (currentHour <? 14))
                || (negb isSunday && (currentHour >=? 8) && (currentHour <? 20)) in
  if isOpen then ("Store Hours - " ++ day_name (getDay now))%string else "CLOSED".

(** Mobile banner, frame classes (lines 201-209). *)
Definition mobile_frame (now : Z) : string :=
  let currentHour := getHours now in
  let isSunday := getDay now =? 0 in
  let isOpen := (isSunday && (currentHour >=? 8) && (currentHour <? 14))
                || (negb isSunday && (currentHour >=? 8) && (currentHour <? 20)) in
  if isOpen then open_frame else closed_frame.

(** Mobile banner, status dot (lines 211-217). *)
Definition mobile_dot (now : Z) : string :=
  let currentHour := getHours now in
  let isSunday := getDay now =? 0 in
  let isOpen := (isSunday && (currentHour >=? 8) && (currentHour <? 14))
                || (negb isSunday && (currentHour >=? 8) && (currentHour <? 20)) in
  if isOpen then "bg-green-500 animate-pulse" else "bg-red-500".

(** Mobile banner, text colour (lines 218-224). *)
Definition mobile_text (now : Z) : string :=
  let currentHour := getHours now in
  let isSunday := getDay now =? 0 in
  let isOpen := (isSunday && (currentHour >=? 8) && (currentHour <? 14))
                || (negb isSunday && (currentHour >=? 8) && (currentHour <? 20)) in
  if isOpen then "text-orange-400" else "text-gray-400".

(** Mobile banner, label (lines 225-232). *)
Definition mobile_label (now : Z) : string :=
  let currentHour := getHours now in
  let isSunday := getDay now =? 0 in
  let isOpen := (isSunday && (currentHour >=? 8) && (currentHour <? 14))
                || (negb isSunday && (currentHour >=? 8) && (currentHour <? 20)) in
  if isOpen then day_name (getDay now) else "CLOSED".

(** The opening rule in words: Sunday 8 to 14, any other day 8 to 20. *)
Definition open_rule (now : Z) : Prop :=
  (getDay now = 0 /\ 8 <= getHours now < 14) \/
  (getDay now <> 0 /\ 8 <= getHours now < 20).

(** The eight inline computations, each reduced to the decision it took:
    the value it returned is its open value. *)
Definition decisions (now : Z) : list bool :=
  [ String.eqb (desktop_frame now) open_frame;
    String.eqb (desktop_dot now) "bg-green-500 animate-pulse";
    String.eqb (desktop_text now) "text-orange-400";
    negb (String.eqb (desktop_label now) "CLOSED");
    String.eqb (mobile_frame now) open_frame;
    String.eqb (mobile_dot now) "bg-green-500 animate-pulse";
    String.eqb (mobile_text now) "text-orange-400";
    negb (String.eqb (mobile_label now) "CLOSED") ].

End StoreHours.

(** ** The catalog query engine *)

Module Catalog.

(** Modelled from the spec: the backend that serves [GET /api/products] is
    not among the sources; the definitions of this module follow the
    contract of the catalog query engine (spec 4.1) word for word. *)
Inductive StockBucket := in_stock | low_stock | out_of_stock.

(** Modelled from the spec: the sort orders of the query contract. *)
Inductive SortOrder := newest | price_asc | price_desc.

(** Modelled from the spec: the parameters of the query contract. *)
Record Query := mkQuery {
  search : option string;
  category : option string;
  minPrice : Q;
  maxPrice : Q;
  stockStatus : option StockBucket;
  sortBy : SortOrder
}.

Definition lower_char (c : ascii) : ascii :=
  let n := nat_of_ascii c in
  if ((65 <=? n) && (n <=? 90))%nat then ascii_of_nat (n + 32) else c.

Fixpoint lower (s : string) : string :=
  match s with
  | EmptyString => EmptyString
  | String c r => String (lower_char c) (lower r)
  end.

Fixpoint starts_with (p s : string) : bool :=
  match p, s with
  | EmptyString, _ => true
  | String a p', String b s' => Ascii.eqb a b && starts_with p' s'
  | String _ _, EmptyString => false
  end.

Fixpoint contains (needle hay : string) : bool :=
  starts_with needle hay ||
  match hay with
  | EmptyString => false
  | String _ r => contains needle r
  end.

(** Modelled from the spec: substring match, ignoring case (the backend's
    matching of the search text is not among the sources). *)
Definition matches_text (needle field : string) : bool :=
  contains (lower needle) (lower field).

(** Modelled from the spec: the stock buckets of the backend, in_stock =
    quantity >= 10; low_stock = 1 <= quantity < 10; out_of_stock =
    quantity = 0. *)
Definition in_bucket (b : StockBucket) (quantity : Z) : bool :=
  match b with
  | in_stock => 10 <=? quantity
  | low_stock => (1 <=? quantity) && (quantity <? 10)
  | out_of_stock => quantity =? 0
  end.

Definition search_ok (q : Query) (p : Product) : bool :=
  match search q with
  | None => true
  | Some s => matches_text s (p_name p) || matches_text s (p_description p)
  end.

Definition category_ok (q : Query) (p : Product) : bool :=
  match category q with
  | None => true
  | Some c => String.eqb (p_category p) c
  end.

Definition price_ok (q : Query) (p : Product) : bool :=
  Qle_bool (minPrice q) (p_price p) && Qle_bool (p_price p) (maxPrice q).

Definition stock_ok (q : Query) (p : Product) : bool :=
  match stockStatus q with
  | None => true
  | Some b => in_bucket b (p_stock p)
  end.

(** Modelled from the spec: the backend's filter, all active predicates
    at once. *)
Definition satisfies (q : Query) (p : Product) : bool :=
  search_ok q p && category_ok q p && price_ok q p && stock_ok q p.

(** Modelled from the spec: the backend's orders; [a] may stand before
    [b]. *)
Definition before (o : SortOrder) (a b : Product) : bool :=
  match o with
  | newest =>
      (p_created b <? p_created a)
      || ((p_created a =? p_created b) && (p_id b <=? p_id a))
  | price_asc => Qle_bool (p_price a) (p_price b)
  | price_desc => Qle_bool (p_price b) (p_price a)
  end.

Fixpoint insert (o : SortOrder) (p : Product) (l : list Product) : list Product :=
  match l with
  | [] => [p]
  | x :: r => if before o p x then p :: l else x :: insert o p r
  end.

Definition sort (o : SortOrder) (l : list Product) : list Product :=
  fold_right (insert o) [] l.

(** Modelled from the spec: the backend's products query, the ordered set
    of products satisfying the query. *)
Definition query (q : Query) (db : list Product) : list Product :=
  sort (sortBy q) (filter (satisfies q) db).

(** A field holds the search text somewhere, letter case aside. *)
Definition holds_text (needle field : string) : Prop :=
  exists pre post : string,
    lower field = (pre ++ lower needle ++ post)%string.

(** The buckets as the spec words them. *)
Definition bucket_rule (b : StockBucket) (quantity : Z) : Prop :=
  match b with
  | in_stock => 10 <= quantity
  | low_stock => 1 <= quantity < 10
  | out_of_stock => quantity = 0
  end.

End Catalog.

(** ** What the page renders from its state *)

(** The products section (lines 425-463): the spinner while [loading], the
    empty message when [products.length === 0], else the heading, the count
    line and one card per product. *)
Inductive ProductsSection :=
| Spinner
| NoProductsFound
| Grid (heading : string) (count : string) (cards : list Product).

Definition products_section (pg : Page) : ProductsSection :=
  if loading pg then Spinner
  else if Nat.eqb (List.length (products pg)) 0 then NoProductsFound
  else Grid (if JS.truthy_opt (selectedCategory (filters pg))
             then opt_text (selectedCategory (filters pg))
             else "All Products")
            (JS.string_of_number (Z.of_nat (List.length (products pg)))
             ++ " items available")%string
            (products pg).

(** A category card carries the class [active] (line 287). *)
Definition card_active (name : string) (pg : Page) : bool :=
  JS.strict_eq_opt (selectedCategory (filters pg)) name.

(** An availability chip carries the class [active] (lines 365, 372, 379,
    386). *)
Definition chip_active (c : StockChip) (pg : Page) : bool :=
  match c with
  | ChipAll => negb (JS.truthy_opt (stockStatus (filters pg)))
  | ChipInStock => JS.strict_eq_opt (stockStatus (filters pg)) "in_stock"
  | ChipLowStock => JS.strict_eq_opt (stockStatus (filters pg)) "low_stock"
  | ChipOutOfStock => JS.strict_eq_opt (stockStatus (filters pg)) "out_of_stock"
  end.

(** An action that sets every cell it touches to the value the cell holds,
    or returns before setting any. *)
Definition idle_action (a : Action) (pg : Page) : Prop :=
  match a with
  | ToggleFilters => True
  | TypeSearch text => text = searchQuery (filters pg)
  | ClearSearch => searchQuery (filters pg) = ""
  | ClickStock c => chip_value c = stockStatus (filters pg)
  | SelectSort i => item_value i = sortBy (filters pg)
  | TypeMinPrice text | TypeMaxPrice text => JS.parseInt text = None
  | ClickCategory _ | MoveSlider _ _ | ClickReset => False
  end.

(** An action that always sets a cell to a value it does not hold: a card
    click toggles, and the price inputs and the reset store a new array. *)
Definition busy_action (a : Action) : Prop :=
  match a with
  | ClickCategory _ | ClickReset => True
  | TypeMinPrice text | TypeMaxPrice text => JS.parseInt text <> None
  | _ => False
  end.

(** Changes that follow one another by less than the debounce delay: [a] at
    [t], then the changes of [rest] in order. *)
Fixpoint burst (t : Z) (a : Action) (rest : list (Z * Action)) (pg : Page) : Prop :=
  changes a (advance_to t pg) = true /\
  match rest with
  | [] => True
  | (t', a') :: rest' =>
      t <= t' < t + 300 /\ burst t' a' rest' (at_time t (User a) pg)
  end.

Fixpoint last_time (t : Z) (rest : list (Z * Action)) : Z :=
  match rest with
  | [] => t
  | (t', _) :: rest' => last_time t' rest'
  end.

Definition user_schedule (l : list (Z * Action)) : list (Z * Event) :=
  map (fun ta => (fst ta, User (snd ta))) l.

(** The default query. *)
Definition default_params : Params :=
  [("min_price", "0"); ("max_price", "10000"); ("sort_by", "newest")].

(** ** The store-hours text (lines 170 and 236) *)

Section StoreHoursText.

Variable utcOffset : Z -> Z.

Definition desktop_hours (now : Z) : string :=
  if getDay utcOffset now =? 0 then "8:00 AM - 2:00 PM" else "8:00 AM - 8:00 PM".

Definition mobile_hours (now : Z) : string :=
  if getDay utcOffset now =? 0 then "8:00 AM - 2:00 PM" else "8:00 AM - 8:00 PM".

End StoreHoursText.

(** ** URLs the page builds

    The form serializer of [URLSearchParams] works on the UTF-8 bytes of a
    string, which is how strings are read there; [encodeURIComponent] works
    on the UTF-16 code units of a JavaScript string and is given them as
    such. *)

Definition hex_digit (n : nat) : ascii :=
  nth n ["0"; "1"; "2"; "3"; "4"; "5"; "6"; "7"; "8"; "9";
         "A"; "B"; "C"; "D"; "E"; "F"]%char "0"%char.

(** [%XX] for a byte. *)
Definition percent (c : ascii) : string :=
  String "%" (String (hex_digit (nat_of_ascii c / 16))
                     (String (hex_digit (nat_of_ascii c mod 16)) EmptyString)).

Definition is_alnum (c : ascii) : bool :=
  let n := nat_of_ascii c in
  ((48 <=? n) && (n <=? 57) || (65 <=? n) && (n <=? 90) || (97 <=? n) && (n <=? 122))%nat.

(** The characters [encodeURIComponent] leaves alone: letters, digits and
    [- _ . ! ~ * ' ( )]. *)
Definition uri_unreserved (c : ascii) : bool :=
  is_alnum c ||
  match c with
  | "-" | "_" | "." | "!" | "~" | "*" | "'" | "(" | ")" => true
  | _ => false
  end%char.

(** The characters the form serializer of [URLSearchParams] leaves alone:
    letters, digits and [* - . _]; a space becomes [+]. *)
Definition form_safe (c : ascii) : bool :=
  is_alnum c ||
  match c with
  | "*" | "-" | "." | "_" => true
  | _ => false
  end%char.

Definition form_encode_byte (c : ascii) : string :=
  if form_safe c then String c EmptyString
  else if Ascii.eqb c " " then "+"
  else percent c.

Fixpoint form_encode (s : string) : string :=
  match s with
  | EmptyString => EmptyString
  | String c r => (form_encode_byte c ++ form_encode r)%string
  end.

Definition pair_text (kv : string * string) : string :=
  (form_encode (fst kv) ++ "=" ++ form_encode (snd kv))%string.

(** [params.toString()]. *)
Fixpoint toString (p : Params) : string :=
  match p with
  | [] => EmptyString
  | [kv] => pair_text kv
  | kv :: rest => (pair_text kv ++ "&" ++ toString rest)%string
  end.

(** The URL [fetchProducts] requests (line 79); [API] is
    [`${BACKEND_URL}/api`], from the build environment. *)
Definition products_url (API : string) (f : Filters) : string :=
  (API ++ "/products?" ++ toString (build_params f))%string.

Fixpoint count_char (c : ascii) (s : string) : nat :=
  match s with
  | EmptyString => 0%nat
  | String x r => ((if Ascii.eqb x c then 1 else 0) + count_char c r)%nat
  end.

(** Every character of a string passes a test. *)
Fixpoint all_chars (ok : ascii -> bool) (s : string) : bool :=
  match s with
  | EmptyString => true
  | String c r => ok c && all_chars ok r
  end.

(** What the form serializer can emit for the bytes of a name or value. *)
Definition form_output (c : ascii) : bool :=
  form_safe c || Ascii.eqb c "+" || Ascii.eqb c "%".

(** What [encodeURIComponent] can emit. *)
Definition uri_output (c : ascii) : bool :=
  uri_unreserved c || Ascii.eqb c "%".

(** *** encodeURIComponent

    A JavaScript string is a sequence of 16-bit code units. *)
Definition JSString := list Z.

(** The code units of ASCII text. *)
Fixpoint units (s : string) : JSString :=
  match s with
  | EmptyString => []
  | String c r => Z.of_nat (nat_of_ascii c) :: units r
  end.

(** Leading surrogates are D800-DBFF, trailing surrogates DC00-DFFF. *)
Definition is_lead (u : Z) : bool := (55296 <=? u) && (u <=? 56319).
Definition is_trail (u : Z) : bool := (56320 <=? u) && (u <=? 57343).

Definition unit_char (u : Z) : ascii := ascii_of_nat (Z.to_nat u).

Definition unit_unreserved (u : Z) : bool :=
  (0 <=? u) && (u <? 128) && uri_unreserved (unit_char u).

(** The code point of a surrogate pair. *)
Definition pair_code_point (lead trail : Z) : Z :=
  (lead - 55296) * 1024 + (trail - 56320) + 65536.

(** The octets of a code point in UTF-8. *)
Definition utf8_octets (cp : Z) : list Z :=
  if cp <? 128 then [cp]
  else if cp <? 2048 then [192 + cp / 64; 128 + cp mod 64]
  else if cp <? 65536
       then [224 + cp / 4096; 128 + (cp / 64) mod 64; 128 + cp mod 64]
       else [240 + cp / 262144; 128 + (cp / 4096) mod 64;
             128 + (cp / 64) mod 64; 128 + cp mod 64].

Fixpoint percent_octets (l : list Z) : string :=
  match l with
  | [] => EmptyString
  | o :: r => (percent (unit_char o) ++ percent_octets r)%string
  end.

Definition prepend (a : string) (r : option string) : option string :=
  match r with
  | Some b => Some (a ++ b)%string
  | None => None
  end.

(** [encodeURIComponent(s)]: an unreserved unit is kept, any other code
    point is written as the percent escapes of its UTF-8 octets; [None] is
    the URIError thrown at a surrogate that has no partner. *)
Fixpoint encodeURIComponent (s : JSString) : option string :=
  match s with
  | [] => Some EmptyString
  | c :: rest =>
      if unit_unreserved c
      then prepend (String (unit_char c) EmptyString) (encodeURIComponent rest)
      else if is_trail c then None
      else if is_lead c
           then match rest with
                | d :: rest' =>
                    if is_trail d
                    then prepend (percent_octets (utf8_octets (pair_code_point c d)))
                                 (encodeURIComponent rest')
                    else None
                | [] => None
                end
           else prepend (percent_octets (utf8_octets c)) (encodeURIComponent rest)
  end.

(** A string holds a surrogate without its partner. *)
Fixpoint has_unpaired (s : JSString) : bool :=
  match s with
  | [] => false
  | c :: rest =>
      if is_trail c then true
      else if is_lead c
           then match rest with
                | d :: rest' => if is_trail d then has_unpaired rest' else true
                | [] => true
                end
           else has_unpaired rest
  end.

(** *** The order link (lines 96-101) *)

Definition phoneNumber : string := "96171294697".

(** The template literal of line 97; [name] is [product.name] and [price]
    the text JavaScript gives for [product.price]. *)
Definition order_message (name price : JSString) : JSString :=
  units "Hi! I'm interested in ordering: " ++ name ++ units " - $" ++ price.

Definition whatsappUrl (name price : JSString) : option string :=
  match encodeURIComponent (order_message name price) with
  | Some text => Some ("https://wa.me/" ++ phoneNumber ++ "?text=" ++ text)%string
  | None => None
  end.

(** [handleOrderWhatsApp]: the arguments of [window.open], or [None] when
    [encodeURIComponent] has thrown and no window is opened. *)
Definition handleOrderWhatsApp (name price : JSString) : option (string * string) :=
  match whatsappUrl name price with
  | Some url => Some (url, "_blank")
  | None => None
  end.

(** *** The test id of a category card (line 286) *)

Definition is_ascii (s : string) : bool :=
  all_chars (fun c => (nat_of_ascii c <? 128)%nat) s.

Definition is_upper (c : ascii) : bool :=
  let n := nat_of_ascii c in ((65 <=? n) && (n <=? 90))%nat.

(** [toLowerCase()] on ASCII text. *)
Fixpoint toLowerCase (s : string) : string :=
  match s with
  | EmptyString => EmptyString
  | String c r =>
      String (if is_upper c then ascii_of_nat (nat_of_ascii c + 32) else c)
             (toLowerCase r)
  end.

(** [replace(/\s+/g, '-')] on ASCII text: every maximal run of white space
    becomes one dash; [in_run] tells that the run has its dash already. *)
Fixpoint dash_runs (in_run : bool) (s : string) : string :=
  match s with
  | EmptyString => EmptyString
  | String c r =>
      if JS.is_white c
      then (if in_run then dash_runs true r else String "-" (dash_runs true r))
      else String c (dash_runs false r)
  end.

Definition category_testid (name : string) : string :=
  ("category-card-" ++ dash_runs false (toLowerCase name))%string.

(** The optional parameters go out exactly when their field is set, where
    a search text or a sort order is set when it is not empty and a category
    or a stock status is set when it is not null. *)
Definition sent_exactly_when_set : Prop :=
  forall f : Filters,
    let p := build_params f in
    (In "search" (names p) <-> searchQuery f <> "") /\
    (In "category" (names p) <-> selectedCategory f <> None) /\
    (In "stock_status" (names p) <-> stockStatus f <> None) /\
    (In "sort_by" (names p) <-> sortBy f <> "").

(** The page after a click on the card of a category whose name is the
    empty string. *)
Definition empty_category_page : Page :=
  at_time 0 (User (ClickCategory "")) (mount 0).

(** A small catalog and a query on it. *)
Definition sample_catalog : list Product :=
  [mkProduct 1 "Hammer" "Claw hammer" 12 25 "Tools" "" 0;
   mkProduct 2 "Chisel" "Bevel edge chisel" 18 4 "Tools" "" 1;
   mkProduct 3 "Sledge" "Long handle HAMMER" 40 0 "Tools" "" 2].

Definition sample_query : Catalog.Query :=
  Catalog.mkQuery (Some "hAm") (Some "Tools") 0 100 (Some Catalog.in_stock) Catalog.price_asc.

(** * Properties *)

Example parseInt_samples :
  JS.parseInt "42" = Some 42 /\ JS.parseInt "  -7px" = Some (-7) /\
  JS.parseInt "" = None /\ JS.parseInt "abc" = None /\
  JS.parseInt "0x1F" = Some 31 /\ JS.parseInt "12.5" = Some 12 /\
  JS.parseInt "-" = None /\ JS.string_of_number 10000 = "10000" /\
  JS.string_of_number 0 = "0".
Proof. repeat split; reflexivity. Qed.

(** ** Facts about the built-ins *)

Lemma truthy_spec (s : string) : JS.truthy s = true <-> s <> "".
Proof.
  destruct s; simpl; split; intro H; try discriminate; try reflexivity.
  now elim H.
Qed.

Lemma truthy_opt_spec (v : option string) :
  JS.truthy_opt v = true <-> exists s, v = Some s /\ s <> "".
Proof.
  destruct v as [s|]; simpl.
  - rewrite truthy_spec. split.
    + intro H. exists s. now split.
    + intros (s' & E & H). now inversion E; subst.
  - split; [discriminate | intros (s & E & _); discriminate].
Qed.

(** ** The products request *)

Ltac by_cases_on_filters f :=
  destruct f as [s c [ref lo hi] st so];
  destruct s as [|? ?]; destruct c as [[|? ?]|];
  destruct st as [[|? ?]|]; destruct so as [|? ?].

(** C5 as the code has it. For every filter state the request built by
    [fetchProducts] carries min_price and max_price, carries search,
    category, stock_status and sort_by exactly when the field holds a string
    that is not empty (null and the empty string are both unset, so a
    selected category whose name is empty is not sent), each with the
    field's value, and carries no other name and no name twice. *)
Theorem request_parameters (f : Filters) :
  let p := build_params f in
  get "min_price" p = Some (JS.string_of_number (pr_lo (priceRange f))) /\
  get "max_price" p = Some (JS.string_of_number (pr_hi (priceRange f))) /\
  get "search" p = (if JS.truthy (searchQuery f) then Some (searchQuery f) else None) /\
  get "category" p = (if JS.truthy_opt (selectedCategory f) then selectedCategory f else None) /\
  get "stock_status" p = (if JS.truthy_opt (stockStatus f) then stockStatus f else None) /\
  get "sort_by" p = (if JS.truthy (sortBy f) then Some (sortBy f) else None) /\
  (In "search" (names p) <-> searchQuery f <> "") /\
  (In "category" (names p) <-> exists s, selectedCategory f = Some s /\ s <> "") /\
  (In "stock_status" (names p) <-> exists s, stockStatus f = Some s /\ s <> "") /\
  (In "sort_by" (names p) <-> sortBy f <> "") /\
  incl (names p) known_names /\
  NoDup (names p).
Proof.
  intro p.
  repeat match goal with |- _ /\ _ => split end.
  1-6: subst p; by_cases_on_filters f; reflexivity.
  1-4: rewrite <- ?truthy_spec, <- ?truthy_opt_spec;
       subst p; by_cases_on_filters f; cbn;
       split; intro H; try reflexivity; try discriminate;
       repeat (destruct H as [H|H]; try discriminate H); auto 8.
  - subst p; by_cases_on_filters f; cbn; intros x H;
      repeat (destruct H as [H|H]; [subst x; cbn; auto 8|]); destruct H.
  - subst p; by_cases_on_filters f; cbn;
      repeat (constructor; [cbn; intro H;
                            repeat (destruct H as [H|H]; [discriminate H|]); exact H|]);
      constructor.
Qed.

(** An empty category name is not null, yet the request leaves it out: the
    test is [if (selectedCategory)]. *)
Example empty_category_is_unset :
  get "category" (build_params (mkFilters "" (Some "") (mkRange 0 0 10000) None "newest")) = None.
Proof. reflexivity. Qed.

(** C5, refuted. After a click on the card of a category named by the empty
    string the category cell is not null, yet the request carries min_price,
    max_price and sort_by only. *)
Lemma empty_category_not_sent :
  reachable empty_category_page /\
  selectedCategory (filters empty_category_page) = Some "" /\
  selectedCategory (filters empty_category_page) <> None /\
  build_params (filters empty_category_page) =
    [("min_price", "0"); ("max_price", "10000"); ("sort_by", "newest")] /\
  ~ In "category" (names (build_params (filters empty_category_page))) /\
  ~ sent_exactly_when_set.
Proof.
  assert (N : ~ In "category" (names (build_params (filters empty_category_page)))).
  { cbn. intros [H|[H|[H|[]]]]; discriminate H. }
  split; [apply reach_event, reach_mount|].
  split; [reflexivity|]. split; [discriminate|]. split; [reflexivity|].
  split; [exact N|].
  intro W. destruct (W (filters empty_category_page)) as (_ & [_ C] & _).
  apply N, C. discriminate.
Qed.

(** ** Handlers and the render *)

Lemma same_opt_refl (v : option string) : JS.same_opt v v = true.
Proof. destruct v; simpl; [apply String.eqb_refl | reflexivity]. Qed.

Lemma deps_same_refl (f : Filters) : deps_same f f = true.
Proof.
  unfold deps_same.
  now rewrite !String.eqb_refl, !same_opt_refl, Nat.eqb_refl.
Qed.

Lemma commit_unchanged (pg : Page) : commit (filters pg) pg = pg.
Proof. unfold commit. now rewrite deps_same_refl. Qed.

Lemma filters_commit (before : Filters) (pg : Page) :
  filters (commit before pg) = filters pg.
Proof.
  unfold commit. destruct (deps_same before (filters pg)); [reflexivity|].
  unfold debounce_effect. destruct (debounce pg); reflexivity.
Qed.

Lemma filters_dispatch (a : Action) (pg : Page) :
  filters (dispatch a pg) = filters (handle a pg).
Proof. apply filters_commit. Qed.

(** ** The price inputs *)

Lemma min_handler_range (text : string) (pg : Page) (v : Z) :
  JS.parseInt text = Some v ->
  priceRange (filters (onMinPriceChange text pg)) =
    mkRange (next_ref pg)
            (Z.max 0 (Z.min v (pr_hi (priceRange (filters pg)))))
            (pr_hi (priceRange (filters pg))).
Proof. intro E. unfold onMinPriceChange. rewrite E. reflexivity. Qed.

Lemma max_handler_range (text : string) (pg : Page) (v : Z) :
  JS.parseInt text = Some v ->
  priceRange (filters (onMaxPriceChange text pg)) =
    mkRange (next_ref pg)
            (pr_lo (priceRange (filters pg)))
            (Z.max (pr_lo (priceRange (filters pg))) (Z.min v 10000)).
Proof. intro E. unfold onMaxPriceChange. rewrite E. reflexivity. Qed.

(** C8. The two price inputs keep 0 <= min <= max <= 10000: a new min is
    clamped into [0, current max] and leaves max alone, a new max is clamped
    into [current min, 10000] and leaves min alone, a value already inside
    its interval is stored as typed, and text that parses to NaN leaves the
    whole page state as it was. *)
Theorem price_inputs_keep_range (pg : Page) (text : string) :
  range_ok (priceRange (filters pg)) ->
  let lo := pr_lo (priceRange (filters pg)) in
  let hi := pr_hi (priceRange (filters pg)) in
  let after_min := priceRange (filters (dispatch (TypeMinPrice text) pg)) in
  let after_max := priceRange (filters (dispatch (TypeMaxPrice text) pg)) in
  range_ok after_min /\ range_ok after_max /\
  (JS.parseInt text = None ->
   dispatch (TypeMinPrice text) pg = pg /\ dispatch (TypeMaxPrice text) pg = pg) /\
  (forall v, JS.parseInt text = Some v ->
     0 <= pr_lo after_min <= hi /\ pr_hi after_min = hi /\
     (0 <= v <= hi -> pr_lo after_min = v) /\
     (v < 0 -> pr_lo after_min = 0) /\ (hi < v -> pr_lo after_min = hi) /\
     lo <= pr_hi after_max <= 10000 /\ pr_lo after_max = lo /\
     (lo <= v <= 10000 -> pr_hi after_max = v) /\
     (v < lo -> pr_hi after_max = lo) /\ (10000 < v -> pr_hi after_max = 10000)).
Proof.
  intros (H0 & H1 & H2) lo hi after_min after_max.
  subst after_min after_max. rewrite !filters_dispatch. cbn [handle].
  destruct (JS.parseInt text) as [v|] eqn:E.
  - rewrite (min_handler_range text pg v E), (max_handler_range text pg v E).
    fold lo hi in H0, H1, H2 |- *. unfold range_ok. cbn [pr_lo pr_hi].
    repeat split; try discriminate; intros; try lia.
    all: match goal with H : Some _ = Some _ |- _ => inversion H; subst end; lia.
  - unfold onMinPriceChange, onMaxPriceChange. rewrite E.
    fold lo hi. unfold range_ok. repeat split; try lia; try discriminate.
    + unfold dispatch. cbn [handle]. unfold onMinPriceChange. rewrite E.
      apply commit_unchanged.
    + unfold dispatch. cbn [handle]. unfold onMaxPriceChange. rewrite E.
      apply commit_unchanged.
Qed.

(** ** The category cards *)

(** C9. A click on the card of the selected category clears the selection,
    a click on any other card selects that card's category, and two clicks on
    one card starting from no selection end with no selection. *)
Theorem category_click_toggles (pg : Page) (name : string) :
  (selectedCategory (filters pg) = Some name ->
   selectedCategory (filters (dispatch (ClickCategory name) pg)) = None) /\
  (selectedCategory (filters pg) <> Some name ->
   selectedCategory (filters (dispatch (ClickCategory name) pg)) = Some name) /\
  (selectedCategory (filters pg) = None ->
   selectedCategory
     (filters (dispatch (ClickCategory name) (dispatch (ClickCategory name) pg))) = None).
Proof.
  assert (click : forall q,
             selectedCategory (filters (dispatch (ClickCategory name) q)) =
             if JS.strict_eq_opt (selectedCategory (filters q)) name
             then None else Some name).
  { intro q. rewrite filters_dispatch. reflexivity. }
  repeat split.
  - intro E. rewrite click, E. simpl. now rewrite String.eqb_refl.
  - intro N. rewrite click.
    destruct (selectedCategory (filters pg)) as [c|]; simpl; [|reflexivity].
    destruct (String.eqb_spec c name); [subst; now elim N | reflexivity].
  - intro E. rewrite click, click, E. simpl. now rewrite String.eqb_refl.
Qed.

(** ** The store-hours banner *)

Section StoreHoursFacts.

Variable utcOffset : Z -> Z.

Lemma getDay_range (now : Z) : 0 <= getDay utcOffset now < 7.
Proof. unfold getDay. apply Z.mod_pos_bound. lia. Qed.

Lemma getHours_range (now : Z) : 0 <= getHours utcOffset now < 24.
Proof. unfold getHours. apply Z.mod_pos_bound. lia. Qed.

Lemma day_name_not_closed (now : Z) :
  String.eqb (day_name (getDay utcOffset now)) "CLOSED" = false.
Proof.
  pose proof (getDay_range now) as R.
  assert (D : getDay utcOffset now = 0 \/ getDay utcOffset now = 1 \/
              getDay utcOffset now = 2 \/ getDay utcOffset now = 3 \/
              getDay utcOffset now = 4 \/ getDay utcOffset now = 5 \/
              getDay utcOffset now = 6) by lia.
  repeat (destruct D as [D|D]; [rewrite D; reflexivity|]).
  rewrite D; reflexivity.
Qed.

(** C10. Whether the banner shows the store as open depends on the
    timestamp alone (through the host clock's day and hour): the store is
    open exactly on Sunday from 8 to 14 and on every other day from 8 to 20,
    and all eight inline computations of a render return their open value
    under this one condition, so at one timestamp they agree. *)
Theorem store_hours_agree (now : Z) :
  exists isOpen : bool,
    (isOpen = true <-> open_rule utcOffset now) /\
    desktop_frame utcOffset now = (if isOpen then open_frame else closed_frame) /\
    desktop_dot utcOffset now = (if isOpen then "bg-green-500 animate-pulse" else "bg-red-500") /\
    desktop_text utcOffset now = (if isOpen then "text-orange-400" else "text-gray-400") /\
    desktop_label utcOffset now =
      (if isOpen then ("Store Hours - " ++ day_name (getDay utcOffset now))%string
       else "CLOSED") /\
    mobile_frame utcOffset now = (if isOpen then open_frame else closed_frame) /\
    mobile_dot utcOffset now = (if isOpen then "bg-green-500 animate-pulse" else "bg-red-500") /\
    mobile_text utcOffset now = (if isOpen then "text-orange-400" else "text-gray-400") /\
    mobile_label utcOffset now =
      (if isOpen then day_name (getDay utcOffset now) else "CLOSED") /\
    decisions utcOffset now = repeat isOpen 8.
Proof.
  set (h := getHours utcOffset now).
  set (d := getDay utcOffset now).
  exists (((d =? 0) && (h >=? 8) && (h <? 14)) || (negb (d =? 0) && (h >=? 8) && (h <? 20))).
  split.
  - unfold open_rule. fold h d.
    rewrite Bool.orb_true_iff, !Bool.andb_true_iff, Bool.negb_true_iff.
    rewrite !Z.geb_leb, !Z.leb_le, !Z.ltb_lt, Z.eqb_eq, Z.eqb_neq. tauto.
  - repeat split.
    unfold decisions, desktop_frame, desktop_dot, desktop_text, desktop_label,
      mobile_frame, mobile_dot, mobile_text, mobile_label.
    fold h d.
    destruct (((d =? 0) && (h >=? 8) && (h <? 14))
              || (negb (d =? 0) && (h >=? 8) && (h <? 20))); cbn [repeat].
    + unfold d. rewrite day_name_not_closed. reflexivity.
    + reflexivity.
Qed.

End StoreHoursFacts.

(** A host on UTC: Sunday 16 November 2025 at 09:00, at 14:00 and at 07:59,
    Monday 17 November 2025 at 19:59 and at 20:00. *)
Example store_hours_samples :
  let utc := fun _ : Z => 0 in
  desktop_label utc 1763283600000 = "Store Hours - Sunday" /\
  desktop_label utc 1763301600000 = "CLOSED" /\
  decisions utc 1763279940000 = repeat false 8 /\
  mobile_label utc 1763409540000 = "Monday" /\
  mobile_label utc 1763409600000 = "CLOSED".
Proof. repeat split; vm_compute; reflexivity. Qed.

(** ** What leaves the filter cells alone *)

Lemma filters_fold_fire (l : list Timer) (pg : Page) :
  filters (fold_left (fun s tm => fire tm s) l pg) = filters pg.
Proof.
  revert pg. induction l as [|tm l IH]; intro pg; simpl; [reflexivity|].
  now rewrite IH.
Qed.

Lemma filters_advance (t : Z) (pg : Page) :
  filters (advance_to t pg) = filters pg.
Proof. unfold advance_to. cbn [filters with_now]. apply filters_fold_fire. Qed.

Lemma filters_settle (r : nat) (o : Outcome) (pg : Page) :
  filters (settle r o pg) = filters pg.
Proof. unfold settle. destruct (is_inflight r pg), o; reflexivity. Qed.

Lemma filters_mount (t0 : Z) : filters (mount t0) = default_filters 0.
Proof. reflexivity. Qed.

(** ** The enumerated filter values *)

Lemma handle_keeps_values (a : Action) (pg : Page) :
  stock_value_ok (stockStatus (filters pg)) /\ sort_value_ok (sortBy (filters pg)) ->
  stock_value_ok (stockStatus (filters (handle a pg))) /\
  sort_value_ok (sortBy (filters (handle a pg))).
Proof.
  intros [Hst Hso]. unfold stock_value_ok, sort_value_ok in *.
  destruct a as [text| | |name|lo hi|text|text|c|i|]; cbn [handle].
  - split; assumption.
  - split; assumption.
  - split; assumption.
  - split; assumption.
  - split; assumption.
  - unfold onMinPriceChange. destruct (JS.parseInt text); split; assumption.
  - unfold onMaxPriceChange. destruct (JS.parseInt text); split; assumption.
  - split; [|assumption]. destruct c; cbn; auto.
  - split; [assumption|]. destruct i; cbn; auto.
  - split; cbn; auto.
Qed.

(** C7. In every state the page can reach the stock-status cell holds null
    or one of in_stock, low_stock, out_of_stock, and the sort cell holds one
    of newest, price_asc, price_desc; the buckets of the backend read
    in_stock = quantity >= 10, low_stock = 1 <= quantity < 10 and
    out_of_stock = quantity = 0. *)
Theorem filter_values_enumerated :
  (forall pg, reachable pg ->
     stock_value_ok (stockStatus (filters pg)) /\ sort_value_ok (sortBy (filters pg))) /\
  (forall quantity : Z,
     (Catalog.in_bucket Catalog.in_stock quantity = true <-> 10 <= quantity) /\
     (Catalog.in_bucket Catalog.low_stock quantity = true <-> 1 <= quantity < 10) /\
     (Catalog.in_bucket Catalog.out_of_stock quantity = true <-> quantity = 0)).
Proof.
  split.
  - intros pg R. induction R as [t0|t e pg R IH|t pg R IH].
    + rewrite filters_mount. unfold stock_value_ok, sort_value_ok. cbn. auto.
    + unfold at_time. destruct e as [a|r o]; cbn [step].
      * rewrite filters_dispatch. apply handle_keeps_values.
        now rewrite filters_advance.
      * now rewrite filters_settle, filters_advance.
    + now rewrite filters_advance.
  - intro quantity. cbn [Catalog.in_bucket].
    rewrite Bool.andb_true_iff, !Z.leb_le, Z.ltb_lt, Z.eqb_eq. tauto.
Qed.

(** ** The catalog query *)

Lemma starts_with_spec (p s : string) :
  Catalog.starts_with p s = true -> exists post, s = (p ++ post)%string.
Proof.
  revert s. induction p as [|a p IH]; intros s H.
  - exists s. reflexivity.
  - destruct s as [|b s]; [discriminate|]. simpl in H.
    apply Bool.andb_true_iff in H as [Hab Hps].
    apply Ascii.eqb_eq in Hab. subst b.
    destruct (IH s Hps) as [post ->]. exists post. reflexivity.
Qed.

Lemma contains_spec (needle hay : string) :
  Catalog.contains needle hay = true ->
  exists pre post, hay = (pre ++ needle ++ post)%string.
Proof.
  induction hay as [|c hay IH]; intro H.
  - simpl in H. rewrite Bool.orb_false_r in H.
    destruct (starts_with_spec _ _ H) as [post E]. exists "", post. exact E.
  - cbn [Catalog.contains] in H. apply Bool.orb_true_iff in H as [H|H].
    + destruct (starts_with_spec _ _ H) as [post E]. exists "", post. exact E.
    + destruct (IH H) as (pre & post & E).
      exists (String c pre), post. simpl. now rewrite E.
Qed.

Lemma matches_text_spec (needle field : string) :
  Catalog.matches_text needle field = true -> Catalog.holds_text needle field.
Proof. apply contains_spec. Qed.

Lemma in_bucket_rule (b : Catalog.StockBucket) (quantity : Z) :
  Catalog.in_bucket b quantity = true -> Catalog.bucket_rule b quantity.
Proof.
  destruct b; cbn; rewrite ?Bool.andb_true_iff, ?Z.leb_le, ?Z.ltb_lt, ?Z.eqb_eq; tauto.
Qed.

Lemma in_insert (o : Catalog.SortOrder) (p x : Product) (l : list Product) :
  In x (Catalog.insert o p l) -> x = p \/ In x l.
Proof.
  induction l as [|y l IH]; simpl.
  - intros [H|[]]. now left.
  - destruct (Catalog.before o p y); simpl.
    + intros [H|H]; [now left | now right].
    + intros [H|H]; [right; now left|].
      destruct (IH H) as [E|I]; [now left | right; now right].
Qed.

Lemma in_sort (o : Catalog.SortOrder) (x : Product) (l : list Product) :
  In x (Catalog.sort o l) -> In x l.
Proof.
  induction l as [|y l IH]; simpl; [tauto|].
  intro H. apply in_insert in H as [E|H]; [left; now symmetry | right; auto].
Qed.

(** C4. Whatever the search text, category, price bounds and stock bucket
    of a query, every product the catalog query returns is a product of the
    catalog that meets all active conditions at once: the search text, when
    given, occurs in its name or its description letter case aside; the
    category, when given, is its category; its price lies between the two
    bounds, both included; its stock quantity lies in the bucket, when one is
    given. *)
Theorem query_results_satisfy_all (q : Catalog.Query) (db : list Product) (p : Product) :
  In p (Catalog.query q db) ->
  In p db /\
  (forall s, Catalog.search q = Some s ->
     Catalog.holds_text s (p_name p) \/ Catalog.holds_text s (p_description p)) /\
  (forall c, Catalog.category q = Some c -> p_category p = c) /\
  (Catalog.minPrice q <= p_price p)%Q /\ (p_price p <= Catalog.maxPrice q)%Q /\
  (forall b, Catalog.stockStatus q = Some b -> Catalog.bucket_rule b (p_stock p)).
Proof.
  unfold Catalog.query. intro H. apply in_sort, filter_In in H as [Hdb H].
  unfold Catalog.satisfies in H.
  apply Bool.andb_true_iff in H as [H Hstock].
  apply Bool.andb_true_iff in H as [H Hprice].
  apply Bool.andb_true_iff in H as [Hsearch Hcat].
  apply Bool.andb_true_iff in Hprice as [Hmin Hmax].
  split; [exact Hdb|]. repeat split.
  - intros s E. unfold Catalog.search_ok in Hsearch. rewrite E in Hsearch.
    apply Bool.orb_true_iff in Hsearch as [H|H]; [left | right];
      now apply matches_text_spec.
  - intros c E. unfold Catalog.category_ok in Hcat. rewrite E in Hcat.
    now apply String.eqb_eq in Hcat.
  - now apply Qle_bool_iff in Hmin.
  - now apply Qle_bool_iff in Hmax.
  - intros b E. unfold Catalog.stock_ok in Hstock. rewrite E in Hstock.
    now apply in_bucket_rule.
Qed.

(** ** Timers *)

Lemma one_pending_cases (pg : Page) :
  one_pending pg = true ->
  timers pg = [] \/ exists tm, timers pg = [tm] /\ debounce pg = Some (tm_id tm).
Proof.
  unfold one_pending. destruct (timers pg) as [|tm [|tm' l]]; intro H.
  - now left.
  - right. exists tm. split; [reflexivity|].
    destruct (debounce pg) as [id|]; [|discriminate].
    apply Nat.eqb_eq in H. now subst.
  - discriminate.
Qed.

Lemma handle_host (a : Action) (pg : Page) :
  timers (handle a pg) = timers pg /\ debounce (handle a pg) = debounce pg /\
  now (handle a pg) = now pg /\ requests (handle a pg) = requests pg /\
  next_timer (handle a pg) = next_timer pg /\ inflight (handle a pg) = inflight pg /\
  next_req (handle a pg) = next_req pg.
Proof.
  destruct a as [text| | |name|lo hi|text|text|c|i|]; cbn [handle];
    try (unfold onMinPriceChange, onMaxPriceChange; destruct (JS.parseInt text));
    repeat split.
Qed.

Lemma handle_refs (a : Action) (pg : Page) :
  (pr_ref (priceRange (filters pg)) < next_ref pg)%nat ->
  (pr_ref (priceRange (filters (handle a pg))) < next_ref (handle a pg))%nat.
Proof.
  destruct a as [text| | |name|lo hi|text|text|c|i|]; cbn [handle];
    try (unfold onMinPriceChange, onMaxPriceChange; destruct (JS.parseInt text));
    cbn; lia.
Qed.

Lemma effect_timers (pg : Page) :
  one_pending pg = true ->
  timers (debounce_effect pg) =
    [mkTimer (next_timer pg) (now pg + debounce_delay) (filters pg)] /\
  debounce (debounce_effect pg) = Some (next_timer pg).
Proof.
  intro H. destruct (one_pending_cases pg H) as [E|(tm & E & D)];
    unfold debounce_effect; rewrite ?D; cbn; unfold clearTimeout, without_timer;
    rewrite E; cbn.
  - destruct (debounce pg); cbn; rewrite ?E; split; reflexivity.
  - rewrite Nat.eqb_refl. cbn. split; reflexivity.
Qed.

Lemma effect_frame (pg : Page) :
  filters (debounce_effect pg) = filters pg /\ now (debounce_effect pg) = now pg /\
  requests (debounce_effect pg) = requests pg /\ next_ref (debounce_effect pg) = next_ref pg /\
  inflight (debounce_effect pg) = inflight pg /\ next_req (debounce_effect pg) = next_req pg.
Proof. unfold debounce_effect. destruct (debounce pg); repeat split. Qed.

Lemma one_pending_handle (a : Action) (pg : Page) :
  one_pending (handle a pg) = one_pending pg.
Proof.
  unfold one_pending. destruct (handle_host a pg) as (-> & -> & _). reflexivity.
Qed.

Lemma dispatch_change (a : Action) (pg : Page) :
  changes a pg = true -> dispatch a pg = debounce_effect (handle a pg).
Proof.
  unfold changes, dispatch, commit. intro H. apply Bool.negb_true_iff in H.
  now rewrite H.
Qed.

Lemma well_formed_dispatch (a : Action) (pg : Page) :
  well_formed pg -> well_formed (dispatch a pg).
Proof.
  intros [P R]. unfold dispatch, commit.
  destruct (deps_same (filters pg) (filters (handle a pg))).
  - split; [now rewrite one_pending_handle | now apply handle_refs].
  - assert (P' : one_pending (handle a pg) = true) by now rewrite one_pending_handle.
    destruct (effect_timers _ P') as [T D].
    destruct (effect_frame (handle a pg)) as (F & _ & _ & N & _).
    split.
    + unfold one_pending. rewrite T, D. cbn. apply Nat.eqb_refl.
    + rewrite F, N. now apply handle_refs.
Qed.

Lemma well_formed_settle (r : nat) (o : Outcome) (pg : Page) :
  well_formed pg -> well_formed (settle r o pg).
Proof. unfold settle. destruct (is_inflight r pg), o; intro H; exact H. Qed.

(** *** The clock *)

Lemma advance_idle (t : Z) (pg : Page) :
  timers pg = [] -> advance_to t pg = with_now (Z.max (now pg) t) pg.
Proof. intro E. unfold advance_to, due_timers. rewrite E. reflexivity. Qed.

Lemma advance_early (t : Z) (pg : Page) (tm : Timer) :
  timers pg = [tm] -> t < tm_due tm ->
  advance_to t pg = with_now (Z.max (now pg) t) pg.
Proof.
  intros E L. unfold advance_to, due_timers. rewrite E. cbn.
  destruct (Z.leb_spec (tm_due tm) t); [lia | reflexivity].
Qed.

Lemma advance_fires (t : Z) (pg : Page) (tm : Timer) :
  timers pg = [tm] -> tm_due tm <= t ->
  advance_to t pg =
    with_now (Z.max (Z.max (now pg) (tm_due tm)) t)
             (fetchProducts (tm_env tm)
                (with_now (Z.max (now pg) (tm_due tm)) (with_timers [] pg))).
Proof.
  intros E L. unfold advance_to, due_timers. rewrite E. cbn.
  destruct (Z.leb_spec (tm_due tm) t); [|lia]. cbn.
  unfold fire, without_timer. rewrite E. cbn. rewrite Nat.eqb_refl. reflexivity.
Qed.

Lemma well_formed_advance (t : Z) (pg : Page) :
  well_formed pg -> well_formed (advance_to t pg).
Proof.
  intros [P R]. destruct (one_pending_cases pg P) as [E|(tm & E & D)].
  - rewrite (advance_idle t pg E). split; assumption.
  - destruct (Z.lt_ge_cases t (tm_due tm)) as [L|L].
    + rewrite (advance_early t pg tm E L). split; assumption.
    + rewrite (advance_fires t pg tm E L). split; [reflexivity | exact R].
Qed.

Lemma now_advance (t : Z) (pg : Page) :
  one_pending pg = true -> now pg <= t -> now (advance_to t pg) = t.
Proof.
  intros P L. destruct (one_pending_cases pg P) as [E|(tm & E & D)].
  - rewrite (advance_idle t pg E). cbn. lia.
  - destruct (Z.lt_ge_cases t (tm_due tm)) as [L'|L'].
    + rewrite (advance_early t pg tm E L'). cbn. lia.
    + rewrite (advance_fires t pg tm E L'). cbn. lia.
Qed.

Lemma well_formed_mount (t0 : Z) : well_formed (mount t0).
Proof. split; [reflexivity | cbn; lia]. Qed.

Lemma reachable_well_formed (pg : Page) : reachable pg -> well_formed pg.
Proof.
  induction 1 as [t0|t e pg R IH|t pg R IH].
  - apply well_formed_mount.
  - unfold at_time. destruct e as [a|r o]; cbn [step].
    + now apply well_formed_dispatch, well_formed_advance.
    + now apply well_formed_settle, well_formed_advance.
  - now apply well_formed_advance.
Qed.

Lemma reachable_run (schedule : list (Z * Event)) (pg : Page) :
  reachable pg -> reachable (run schedule pg).
Proof.
  revert pg. induction schedule as [|[t e] rest IH]; intros pg R; simpl.
  - exact R.
  - apply IH. now apply reach_event.
Qed.

(** ** The debounced refetch *)

(** A change at [t] leaves exactly one timer, due 300 later, that will fetch
    with the filters as the change left them; no request is issued yet. *)
Lemma after_change (pg : Page) (a : Action) (t : Z) :
  one_pending pg = true -> now pg <= t ->
  changes a (advance_to t pg) = true ->
  let before := advance_to t pg in
  let after := at_time t (User a) pg in
  one_pending after = true /\ now after = t /\
  timers after = [mkTimer (next_timer before) (t + 300) (filters after)] /\
  requests after = requests before.
Proof.
  intros P L C before after.
  assert (Pb : one_pending before = true).
  { subst before. destruct (one_pending_cases pg P) as [E|(tm & E & D)].
    - now rewrite (advance_idle t pg E).
    - destruct (Z.lt_ge_cases t (tm_due tm)) as [L'|L'].
      + now rewrite (advance_early t pg tm E L').
      + now rewrite (advance_fires t pg tm E L'). }
  assert (Nb : now before = t) by (subst before; now apply now_advance).
  assert (E : after = debounce_effect (handle a before)).
  { subst after. unfold at_time. cbn [step]. now apply dispatch_change. }
  assert (Ph : one_pending (handle a before) = true) by now rewrite one_pending_handle.
  destruct (effect_timers _ Ph) as [T D].
  destruct (effect_frame (handle a before)) as (F & N & Rq & _).
  destruct (handle_host a before) as (_ & _ & Hn & Hr & Ht & _).
  rewrite E. repeat split.
  - unfold one_pending. rewrite T, D. cbn. apply Nat.eqb_refl.
  - now rewrite N, Hn.
  - rewrite T, F, Ht, Hn, Nb. reflexivity.
  - now rewrite Rq, Hr.
Qed.

(** While the pending timer is not due, time passing issues no request and
    keeps the timer. *)
Lemma waiting_is_quiet (pg : Page) (tm : Timer) (t : Z) :
  timers pg = [tm] -> t < tm_due tm ->
  requests (advance_to t pg) = requests pg /\
  timers (advance_to t pg) = [tm] /\
  one_pending (advance_to t pg) = one_pending pg.
Proof.
  intros E L. rewrite (advance_early t pg tm E L). repeat split. exact E.
Qed.

(** Once the pending timer is due it fires at its due time, with the filters
    it captured, and nothing stays pending. *)
Lemma debounce_fires (pg : Page) (tm : Timer) (t : Z) :
  timers pg = [tm] -> now pg <= tm_due tm -> tm_due tm <= t ->
  fetches (advance_to t pg) = fetches pg ++ [(tm_due tm, build_params (tm_env tm))] /\
  timers (advance_to t pg) = [].
Proof.
  intros E N L. rewrite (advance_fires t pg tm E L). unfold fetches. cbn.
  rewrite map_app. cbn. rewrite Z.max_r by lia. split; reflexivity.
Qed.

(** C1. Every change of the search text, the category, the price range, the
    stock filter or the sort order arms one timer due 300 time units after
    the change, holding the filters as the change left them; whatever timer
    was pending is cancelled, and when the new one falls due exactly one
    request goes out, at that time, with those filters.  So changes at 0, 50
    and 100 issue exactly one request, at 400, with the filters as of 100. *)
Theorem debounce_trailing_edge (pg : Page) :
  reachable pg ->
  (forall (a : Action) (t T : Z),
     now pg <= t -> changes a (advance_to t pg) = true -> t + 300 <= T ->
     let before := advance_to t pg in
     let after := at_time t (User a) pg in
     timers after = [mkTimer (next_timer before) (t + 300) (filters after)] /\
     fetches after = fetches before /\
     fetches (advance_to T after) =
       fetches before ++ [(t + 300, build_params (filters after))]) /\
  (forall (a1 a2 a3 : Action) (T : Z),
     now pg <= 0 ->
     let s1 := at_time 0 (User a1) pg in
     let s2 := at_time 50 (User a2) s1 in
     let s3 := at_time 100 (User a3) s2 in
     changes a1 (advance_to 0 pg) = true ->
     changes a2 (advance_to 50 s1) = true ->
     changes a3 (advance_to 100 s2) = true ->
     400 <= T ->
     fetches (advance_to T s3) =
       fetches (advance_to 0 pg) ++ [(400, build_params (filters s3))]).
Proof.
  intro R. destruct (reachable_well_formed pg R) as [P _]. split.
  - intros a t T L C LT before after.
    destruct (after_change pg a t P L C) as (Pa & Na & Ta & Ra).
    fold before after in Pa, Na, Ta, Ra.
    split; [exact Ta|]. split; [unfold fetches; now rewrite Ra|].
    destruct (debounce_fires after _ T Ta) as [F _].
    { cbn [tm_due]. rewrite Na. lia. }
    { cbn [tm_due]. lia. }
    cbn [tm_due tm_env] in F. rewrite F. unfold fetches. now rewrite Ra.
  - intros a1 a2 a3 T L s1 s2 s3 C1 C2 C3 LT.
    destruct (after_change pg a1 0 P L C1) as (P1 & N1 & T1 & R1).
    fold s1 in P1, N1, T1, R1.
    destruct (waiting_is_quiet s1 _ 50 T1) as (W1 & _).
    { cbn [tm_due]. lia. }
    destruct (after_change s1 a2 50 P1) as (P2 & N2 & T2 & R2).
    { lia. }
    { exact C2. }
    fold s2 in P2, N2, T2, R2.
    destruct (waiting_is_quiet s2 _ 100 T2) as (W2 & _).
    { cbn [tm_due]. lia. }
    destruct (after_change s2 a3 100 P2) as (P3 & N3 & T3 & R3).
    { lia. }
    { exact C3. }
    fold s3 in P3, N3, T3, R3.
    destruct (debounce_fires s3 _ T T3) as [F _].
    { cbn [tm_due]. rewrite N3. lia. }
    { cbn [tm_due]. lia. }
    cbn [tm_due tm_env] in F. rewrite F. unfold fetches. rewrite R3, W2, R2, W1, R1. reflexivity.
Qed.

Lemma reset_is_a_change (pg : Page) :
  well_formed pg -> changes ClickReset pg = true.
Proof.
  intros [_ R]. unfold changes, deps_same. cbn.
  replace (Nat.eqb (pr_ref (priceRange (filters pg))) (next_ref pg)) with false
    by (symmetry; apply Nat.eqb_neq; lia).
  now rewrite Bool.andb_false_r.
Qed.

(** C3. From any state of the page a click on reset puts every filter back
    to its default (category null, price range 0 to 10000, stock status null,
    sort newest, search empty) and leads to exactly one request: none at the
    click, one timer left pending, and one request 300 time units later with
    the default filters. *)
Theorem reset_restores_defaults (pg : Page) (t T : Z) :
  reachable pg -> now pg <= t -> t + 300 <= T ->
  let before := advance_to t pg in
  let after := at_time t (User ClickReset) pg in
  searchQuery (filters after) = "" /\
  selectedCategory (filters after) = None /\
  pr_lo (priceRange (filters after)) = 0 /\
  pr_hi (priceRange (filters after)) = 10000 /\
  stockStatus (filters after) = None /\
  sortBy (filters after) = "newest" /\
  timers after = [mkTimer (next_timer before) (t + 300) (filters after)] /\
  fetches after = fetches before /\
  fetches (advance_to T after) =
    fetches before ++
    [(t + 300, [("min_price", "0"); ("max_price", "10000"); ("sort_by", "newest")])].
Proof.
  intros R L LT before after.
  pose proof (reachable_well_formed pg R) as W.
  assert (C : changes ClickReset (advance_to t pg) = true)
    by now apply reset_is_a_change, well_formed_advance.
  destruct W as [P _].
  destruct (after_change pg ClickReset t P L C) as (Pa & Na & Ta & Ra).
  fold before after in Pa, Na, Ta, Ra.
  assert (F : filters after = default_filters (next_ref before)).
  { subst after. unfold at_time. cbn [step]. rewrite filters_dispatch. reflexivity. }
  repeat split; try (rewrite F; reflexivity).
  - exact Ta.
  - unfold fetches. now rewrite Ra.
  - destruct (debounce_fires after _ T Ta) as [Fi _].
    { cbn [tm_due]. rewrite Na. lia. }
    { cbn [tm_due]. lia. }
    cbn [tm_due tm_env] in Fi. rewrite Fi, F. unfold fetches. now rewrite Ra.
Qed.

(** ** Responses *)

Lemma still_inflight (r r' : nat) (o : Outcome) (pg : Page) :
  r <> r' -> is_inflight r' (settle r o pg) = is_inflight r' pg.
Proof.
  intro N. unfold settle. destruct (is_inflight r pg); [|reflexivity].
  assert (E : forall l, existsb (Nat.eqb r') (filter (fun x => negb (Nat.eqb x r)) l)
                        = existsb (Nat.eqb r') l).
  { induction l as [|x l IH]; [reflexivity|]. simpl.
    destruct (Nat.eqb_spec x r) as [->|Nx]; simpl.
    - rewrite IH. destruct (Nat.eqb_spec r' r) as [->|]; [now elim N | reflexivity].
    - now rewrite IH. }
  unfold is_inflight. destruct o; cbn; apply E.
Qed.

Lemma settled_once (r : nat) (o : Outcome) (pg : Page) :
  is_inflight r pg = true -> is_inflight r (settle r o pg) = false.
Proof.
  intro H. unfold settle. rewrite H.
  assert (E : forall l, existsb (Nat.eqb r) (filter (fun x => negb (Nat.eqb x r)) l) = false).
  { induction l as [|x l IH]; [reflexivity|]. simpl.
    destruct (Nat.eqb_spec x r) as [->|Nx]; simpl; [exact IH|].
    rewrite IH. destruct (Nat.eqb_spec r x); [now elim Nx | reflexivity]. }
  unfold is_inflight. destruct o; cbn; apply E.
Qed.

Lemma same_schedule_fire (tm : Timer) (a b : Page) :
  same_schedule a b -> same_schedule (fire tm a) (fire tm b).
Proof.
  intros (T & Rq & N & Nr). unfold same_schedule, fire, without_timer. cbn.
  now rewrite T, Rq, N, Nr.
Qed.

Lemma same_schedule_fold (l : list Timer) (a b : Page) :
  same_schedule a b ->
  same_schedule (fold_left (fun s tm => fire tm s) l a)
                (fold_left (fun s tm => fire tm s) l b).
Proof.
  revert a b. induction l as [|tm l IH]; intros a b H; simpl; [exact H|].
  now apply IH, same_schedule_fire.
Qed.

Lemma same_schedule_advance (t : Z) (a b : Page) :
  same_schedule a b -> same_schedule (advance_to t a) (advance_to t b).
Proof.
  intro H. unfold advance_to, due_timers.
  destruct H as (T & Rq & N & Nr) eqn:E. rewrite T.
  pose proof (same_schedule_fold
                (by_due (filter (fun tm => tm_due tm <=? t) (timers b))) a b H)
    as (T' & Rq' & N' & Nr').
  unfold same_schedule. cbn. now rewrite T', Rq', N', Nr'.
Qed.

Lemma same_schedule_settle (r : nat) (o : Outcome) (pg : Page) :
  same_schedule (settle r o pg) pg.
Proof. unfold settle. destruct (is_inflight r pg), o; repeat split. Qed.

(** C6. When a products request fails the list on display stays as it was,
    an error notification is raised, the loading flag is cleared, and nothing
    is tried again: the failure issues no request and arms no timer, and from
    then on the page issues the very requests it would have issued
    otherwise. *)
Theorem failed_fetch_keeps_products (pg : Page) (r : nat) :
  is_inflight r pg = true ->
  let after := settle r Rejected pg in
  products after = products pg /\
  toasts after = toasts pg ++ [error_toast] /\
  loading after = false /\
  is_inflight r after = false /\
  requests after = requests pg /\
  timers after = timers pg /\
  filters after = filters pg /\
  (forall t, requests (advance_to t after) = requests (advance_to t pg)).
Proof.
  intros H after.
  assert (E : after = with_loading false
                        (with_toasts (toasts pg ++ [error_toast])
                           (with_inflight
                              (filter (fun x => negb (Nat.eqb x r)) (inflight pg)) pg))).
  { subst after. unfold settle. now rewrite H. }
  repeat split; try (rewrite E; reflexivity).
  - subst after. now apply settled_once.
  - intro t.
    apply (same_schedule_advance t after pg (same_schedule_settle r Rejected pg)).
Qed.

(** C2 as the code has it. The page takes the data of every response that
    succeeds, whichever request it answers: of two requests in flight the
    list on display after both responses is the data of the response that
    arrived last, the newer request's when the responses arrive in the order
    of the requests, the older request's when the older response arrives
    last. *)
Theorem last_response_wins (pg : Page) (older newer : nat) (d_old d_new : list Product) :
  is_inflight older pg = true -> is_inflight newer pg = true -> older <> newer ->
  products (settle newer (Fulfilled d_new) (settle older (Fulfilled d_old) pg)) = d_new /\
  products (settle older (Fulfilled d_old) (settle newer (Fulfilled d_new) pg)) = d_old.
Proof.
  intros Ho Hn N.
  assert (shown : forall r d q, is_inflight r q = true ->
                                products (settle r (Fulfilled d) q) = d).
  { intros r d q H. unfold settle. now rewrite H. }
  split; apply shown.
  - now rewrite still_inflight.
  - rewrite still_inflight; [exact Ho | congruence].
Qed.

(** C2, refuted. With the request for "d" (request 2) and the request for
    "dr" (request 3) both in flight, the newer response arriving first and
    the older one last leaves the older data on display, under a search box
    that reads "dr". *)
Lemma stale_response_overwrites :
  reachable two_requests /\
  map rq_query (requests two_requests) =
    [build_params (default_filters 0); build_params (default_filters 0);
     [("search", "d"); ("min_price", "0"); ("max_price", "10000"); ("sort_by", "newest")];
     [("search", "dr"); ("min_price", "0"); ("max_price", "10000"); ("sort_by", "newest")]] /\
  is_inflight 2 two_requests = true /\ is_inflight 3 two_requests = true /\
  searchQuery (filters two_requests) = "dr" /\
  products (settle 2 (Fulfilled stale_data)
              (settle 3 (Fulfilled fresh_data) two_requests)) = stale_data /\
  stale_data <> fresh_data /\
  ~ newer_fetch_wins.
Proof.
  assert (R : reachable two_requests).
  { apply reach_wait, reachable_run, reach_mount. }
  repeat split; try reflexivity; try exact R; try discriminate.
  intro W.
  destruct (W two_requests 2%nat 3%nat stale_data fresh_data R) as [_ H];
    try reflexivity; try lia.
  discriminate H.
Qed.

(** * The theorems at work on concrete pages *)

(** Typing "d", then "dr", then choosing In Stock at 0, 50 and 100 on a page
    mounted at 0: the mount request, then one request at 400. *)
Lemma debounce_trailing_edge_witness :
  reachable (mount 0) /\ now (mount 0) <= 0 /\
  changes (TypeSearch "d") (advance_to 0 (mount 0)) = true /\
  changes (TypeSearch "dr")
          (advance_to 50 (at_time 0 (User (TypeSearch "d")) (mount 0))) = true /\
  changes (ClickStock ChipInStock)
          (advance_to 100 (at_time 50 (User (TypeSearch "dr"))
                             (at_time 0 (User (TypeSearch "d")) (mount 0)))) = true /\
  400 <= 1000 /\
  fetches (advance_to 1000
             (run [(0, User (TypeSearch "d")); (50, User (TypeSearch "dr"));
                   (100, User (ClickStock ChipInStock))] (mount 0))) =
    [(0, [("min_price", "0"); ("max_price", "10000"); ("sort_by", "newest")]);
     (400, [("search", "dr"); ("min_price", "0"); ("max_price", "10000");
            ("stock_status", "in_stock"); ("sort_by", "newest")])].
Proof.
  split; [apply reach_mount|].
  split; [simpl; lia|].
  split; [reflexivity|]. split; [reflexivity|]. split; [reflexivity|].
  split; [lia|].
  apply (proj2 (debounce_trailing_edge (mount 0) (reach_mount 0))
               (TypeSearch "d") (TypeSearch "dr") (ClickStock ChipInStock) 1000).
  - simpl; lia.
  - reflexivity.
  - reflexivity.
  - reflexivity.
  - lia.
Defined.

(** Two requests in flight, answered in either order. *)
Lemma last_response_wins_witness :
  is_inflight 2 two_requests = true /\ is_inflight 3 two_requests = true /\
  2%nat <> 3%nat /\
  products (settle 3 (Fulfilled fresh_data)
              (settle 2 (Fulfilled stale_data) two_requests)) = fresh_data /\
  products (settle 2 (Fulfilled stale_data)
              (settle 3 (Fulfilled fresh_data) two_requests)) = stale_data.
Proof.
  split; [reflexivity|]. split; [reflexivity|]. split; [discriminate|].
  apply (last_response_wins two_requests 2 3 stale_data fresh_data).
  - reflexivity.
  - reflexivity.
  - discriminate.
Defined.

(** A reset at 1000 on a page mounted at 0. *)
Lemma reset_restores_defaults_witness :
  reachable (mount 0) /\ now (mount 0) <= 1000 /\ 1000 + 300 <= 2000 /\
  filters (at_time 1000 (User ClickReset) (mount 0)) = default_filters 1 /\
  fetches (advance_to 2000 (at_time 1000 (User ClickReset) (mount 0))) =
    fetches (advance_to 1000 (mount 0)) ++
    [(1300, [("min_price", "0"); ("max_price", "10000"); ("sort_by", "newest")])].
Proof.
  split; [apply reach_mount|]. split; [simpl; lia|]. split; [lia|].
  split; [reflexivity|].
  apply (reset_restores_defaults (mount 0) 1000 2000).
  - apply reach_mount.
  - simpl; lia.
  - lia.
Defined.

(** The one in-stock tool under 100 whose text holds "ham". *)
Lemma query_results_satisfy_all_witness :
  In (mkProduct 1 "Hammer" "Claw hammer" 12 25 "Tools" "" 0)
     (Catalog.query sample_query sample_catalog) /\
  Catalog.bucket_rule Catalog.in_stock 25.
Proof.
  split; [left; reflexivity|].
  apply (query_results_satisfy_all sample_query sample_catalog
           (mkProduct 1 "Hammer" "Claw hammer" 12 25 "Tools" "" 0)).
  - left; reflexivity.
  - reflexivity.
Defined.

(** The mount request fails. *)
Lemma failed_fetch_keeps_products_witness :
  is_inflight 0 (mount 0) = true /\
  products (settle 0 Rejected (mount 0)) = [] /\
  toasts (settle 0 Rejected (mount 0)) = ["Failed to load products"] /\
  loading (settle 0 Rejected (mount 0)) = false.
Proof.
  split; [reflexivity|].
  destruct (failed_fetch_keeps_products (mount 0) 0 eq_refl) as (P & Ts & L & _).
  split; [exact P|]. split; [exact Ts | exact L].
Defined.

(** The freshly mounted page. *)
Lemma filter_values_enumerated_witness :
  reachable (mount 0) /\
  stock_value_ok (stockStatus (filters (mount 0))) /\
  sort_value_ok (sortBy (filters (mount 0))).
Proof.
  split; [apply reach_mount|].
  apply (proj1 filter_values_enumerated (mount 0)). apply reach_mount.
Defined.

(** Typing 250 into each price input of the freshly mounted page. *)
Lemma price_inputs_keep_range_witness :
  range_ok (priceRange (filters (mount 0))) /\
  range_ok (priceRange (filters (dispatch (TypeMinPrice "250") (mount 0)))) /\
  range_ok (priceRange (filters (dispatch (TypeMaxPrice "250") (mount 0)))).
Proof.
  assert (H : range_ok (priceRange (filters (mount 0)))).
  { unfold range_ok. simpl. lia. }
  split; [exact H|].
  destruct (price_inputs_keep_range (mount 0) "250" H) as (Hmin & Hmax & _).
  split; [exact Hmin | exact Hmax].
Defined.

(** Two clicks on the Tools card of the freshly mounted page. *)
Lemma category_click_toggles_witness :
  selectedCategory (filters (mount 0)) = None /\
  selectedCategory
    (filters (dispatch (ClickCategory "Tools")
                (dispatch (ClickCategory "Tools") (mount 0)))) = None.
Proof.
  split; [reflexivity|].
  apply (proj2 (proj2 (category_click_toggles (mount 0) "Tools"))). reflexivity.
Defined.

(** * Further properties of the page *)

(** ** When the effect runs again *)

Lemma same_opt_eq (a b : option string) : JS.same_opt a b = true -> a = b.
Proof.
  destruct a as [x|], b as [y|]; simpl; intro H; try discriminate; try reflexivity.
  apply String.eqb_eq in H. now subst.
Qed.

Lemma deps_same_fields (a b : Filters) :
  deps_same a b = true ->
  searchQuery a = searchQuery b /\ selectedCategory a = selectedCategory b /\
  pr_ref (priceRange a) = pr_ref (priceRange b) /\
  stockStatus a = stockStatus b /\ sortBy a = sortBy b.
Proof.
  unfold deps_same. rewrite !Bool.andb_true_iff.
  intros ((((S & C) & R) & St) & So).
  apply String.eqb_eq in S, So. apply same_opt_eq in C, St. apply Nat.eqb_eq in R.
  repeat split; assumption.
Qed.

Lemma filters_eta (f : Filters) :
  mkFilters (searchQuery f) (selectedCategory f) (priceRange f) (stockStatus f) (sortBy f) = f.
Proof. now destruct f. Qed.

(** On a page whose array is older than the next allocation, a handler that
    leaves the dependencies the same has left the filters as they were. *)
Lemma handle_unchanged (a : Action) (pg : Page) :
  (pr_ref (priceRange (filters pg)) < next_ref pg)%nat ->
  deps_same (filters pg) (filters (handle a pg)) = true ->
  filters (handle a pg) = filters pg.
Proof.
  intros Fresh D. apply deps_same_fields in D as (S & C & R & St & So).
  destruct a as [text| | |name|lo hi|text|text|c|i|]; cbn [handle] in *.
  - cbn in S |- *. rewrite <- S. apply filters_eta.
  - cbn in S |- *. rewrite <- S. apply filters_eta.
  - reflexivity.
  - unfold onCategoryClick in *. cbn in C |- *. rewrite <- C. apply filters_eta.
  - cbn in R. lia.
  - unfold onMinPriceChange in *. destruct (JS.parseInt text); [cbn in R; lia | reflexivity].
  - unfold onMaxPriceChange in *. destruct (JS.parseInt text); [cbn in R; lia | reflexivity].
  - cbn in St |- *. rewrite <- St. apply filters_eta.
  - cbn in So |- *. rewrite <- So. apply filters_eta.
  - cbn in R. lia.
Qed.

Lemma pending_env_current (pg : Page) :
  reachable pg -> forall tm, In tm (timers pg) -> tm_env tm = filters pg.
Proof.
  induction 1 as [t0|t e pg R IH|t pg R IH].
  - intros tm [<-|[]]. reflexivity.
  - assert (Adv : forall tm, In tm (timers (advance_to t pg)) ->
                             tm_env tm = filters (advance_to t pg)).
    { intros tm I. rewrite filters_advance. apply IH.
      destruct (reachable_well_formed pg R) as [P _].
      destruct (one_pending_cases pg P) as [E|(tm' & E & D)].
      - rewrite (advance_idle t pg E) in I. exact I.
      - destruct (Z.lt_ge_cases t (tm_due tm')) as [L|L].
        + rewrite (advance_early t pg tm' E L) in I. exact I.
        + rewrite (advance_fires t pg tm' E L) in I. destruct I. }
    pose proof (well_formed_advance t pg (reachable_well_formed pg R)) as [P Fresh].
    unfold at_time. destruct e as [a|r o]; cbn [step].
    + unfold dispatch, commit.
      destruct (deps_same (filters (advance_to t pg))
                          (filters (handle a (advance_to t pg)))) eqn:D.
      * intros tm I. rewrite (handle_unchanged a _ Fresh D).
        destruct (handle_host a (advance_to t pg)) as (T & _). rewrite T in I.
        now apply Adv.
      * assert (Ph : one_pending (handle a (advance_to t pg)) = true)
          by now rewrite one_pending_handle.
        destruct (effect_timers _ Ph) as [T _].
        destruct (effect_frame (handle a (advance_to t pg))) as (F & _).
        intros tm I. rewrite T in I. destruct I as [<-|[]]. now rewrite F.
    + intros tm I. rewrite filters_settle. apply Adv.
      unfold settle in I. destruct (is_inflight r (advance_to t pg)), o; exact I.
  - intros tm I. rewrite filters_advance. apply IH.
    destruct (reachable_well_formed pg R) as [P _].
    destruct (one_pending_cases pg P) as [E|(tm' & E & D)].
    + rewrite (advance_idle t pg E) in I. exact I.
    + destruct (Z.lt_ge_cases t (tm_due tm')) as [L|L].
      * rewrite (advance_early t pg tm' E L) in I. exact I.
      * rewrite (advance_fires t pg tm' E L) in I. destruct I.
Qed.

(** X1. In every state the page can reach at most one debounce timer is
    pending, the pending timer holds the filters the page shows, and time
    passing alone issues no request or exactly one, which carries the filters
    the page shows. *)
Theorem pending_timer_is_current (pg : Page) :
  reachable pg ->
  (List.length (timers pg) <= 1)%nat /\
  (forall tm, In tm (timers pg) -> tm_env tm = filters pg) /\
  (forall T,
     map snd (fetches (advance_to T pg)) = map snd (fetches pg) \/
     map snd (fetches (advance_to T pg)) =
       map snd (fetches pg) ++ [build_params (filters pg)]).
Proof.
  intro R. pose proof (pending_env_current pg R) as Cur.
  destruct (reachable_well_formed pg R) as [P _].
  destruct (one_pending_cases pg P) as [E|(tm & E & D)].
  - split; [rewrite E; cbn; lia|]. split; [exact Cur|].
    intro T. left. now rewrite (advance_idle T pg E).
  - split; [rewrite E; cbn; lia|]. split; [exact Cur|].
    intro T. destruct (Z.lt_ge_cases T (tm_due tm)) as [L|L].
    + left. now rewrite (advance_early T pg tm E L).
    + right. rewrite (advance_fires T pg tm E L). unfold fetches. cbn.
      rewrite !map_app, !map_map. cbn.
      rewrite (Cur tm) by (rewrite E; now left). reflexivity.
Qed.

Lemma pending_timer_is_current_witness :
  reachable (mount 0) /\ (List.length (timers (mount 0)) <= 1)%nat /\
  forall tm, In tm (timers (mount 0)) -> tm_env tm = filters (mount 0).
Proof.
  split; [apply reach_mount|].
  destruct (pending_timer_is_current (mount 0) (reach_mount 0)) as (L & C & _).
  split; [exact L | exact C].
Defined.

(** X2. Mounting the page issues the default query twice: once at once, from
    the mount effect, and once 300 time units later, from the first run of
    the debounce effect, when nothing else happens in between. *)
Theorem mount_fetches_twice (t0 T : Z) :
  (T < t0 + 300 -> fetches (advance_to T (mount t0)) = [(t0, default_params)]) /\
  (t0 + 300 <= T ->
   fetches (advance_to T (mount t0)) =
     [(t0, default_params); (t0 + 300, default_params)]).
Proof.
  assert (E : timers (mount t0) = [mkTimer 0 (t0 + 300) (default_filters 0)])
    by reflexivity.
  split; intro L.
  - rewrite (advance_early T (mount t0) _ E) by (cbn [tm_due]; lia). reflexivity.
  - destruct (debounce_fires (mount t0) _ T E) as [F _].
    { cbn. lia. }
    { cbn [tm_due]. lia. }
    rewrite F. reflexivity.
Qed.

Lemma mount_fetches_twice_witness :
  500 < 1000 + 300 /\ 1000 + 300 <= 1300 /\
  fetches (advance_to 500 (mount 1000)) = [(1000, default_params)] /\
  fetches (advance_to 1300 (mount 1000)) =
    [(1000, default_params); (1300, default_params)].
Proof.
  split; [lia|]. split; [lia|]. split.
  - apply (proj1 (mount_fetches_twice 1000 500)). lia.
  - apply (proj2 (mount_fetches_twice 1000 1300)). lia.
Defined.

Lemma idle_keeps_filters (a : Action) (pg : Page) :
  idle_action a pg -> filters (handle a pg) = filters pg.
Proof.
  destruct a as [text| | |name|lo hi|text|text|c|i|]; cbn [idle_action handle]; intro H;
    try contradiction.
  - subst text. apply filters_eta.
  - cbn. rewrite <- H. apply filters_eta.
  - reflexivity.
  - unfold onMinPriceChange. now rewrite H.
  - unfold onMaxPriceChange. now rewrite H.
  - cbn. rewrite H. apply filters_eta.
  - cbn. rewrite H. apply filters_eta.
Qed.

(** X3. An action that stores what is stored already (the Filters button,
    the search text typed as it stands, the clear button on an empty search,
    the chip or sort item that is selected, price text that parses to NaN)
    leaves the filters, the pending timer and the requests as they were: no
    refetch is scheduled and none is cancelled. *)
Theorem idle_actions_schedule_nothing (a : Action) (pg : Page) :
  idle_action a pg ->
  changes a pg = false /\
  filters (dispatch a pg) = filters pg /\
  timers (dispatch a pg) = timers pg /\
  debounce (dispatch a pg) = debounce pg /\
  requests (dispatch a pg) = requests pg /\
  forall T, requests (advance_to T (dispatch a pg)) = requests (advance_to T pg).
Proof.
  intro H. pose proof (idle_keeps_filters a pg H) as F.
  assert (C : changes a pg = false).
  { unfold changes. now rewrite F, deps_same_refl. }
  assert (E : dispatch a pg = handle a pg).
  { unfold dispatch, commit. unfold changes in C.
    apply Bool.negb_false_iff in C. now rewrite C. }
  destruct (handle_host a pg) as (T & D & N & Rq & _ & _ & Nr).
  rewrite E. repeat split; try assumption.
  intro T'.
  apply (same_schedule_advance T' (handle a pg) pg). repeat split; assumption.
Qed.

Lemma idle_actions_schedule_nothing_witness :
  idle_action (ClickStock ChipAll) (mount 0) /\
  timers (dispatch (ClickStock ChipAll) (mount 0)) = timers (mount 0) /\
  idle_action (TypeMinPrice "abc") (mount 0) /\
  requests (dispatch (TypeMinPrice "abc") (mount 0)) = requests (mount 0).
Proof.
  assert (H1 : idle_action (ClickStock ChipAll) (mount 0)) by reflexivity.
  assert (H2 : idle_action (TypeMinPrice "abc") (mount 0)) by reflexivity.
  destruct (idle_actions_schedule_nothing _ _ H1) as (_ & _ & T1 & _).
  destruct (idle_actions_schedule_nothing _ _ H2) as (_ & _ & _ & _ & R2 & _).
  split; [exact H1|]. split; [exact T1|]. split; [exact H2 | exact R2].
Defined.

Lemma category_click_changes (name : string) (pg : Page) :
  changes (ClickCategory name) pg = true.
Proof.
  unfold changes, deps_same. cbn.
  rewrite String.eqb_refl. cbn.
  assert (E : JS.same_opt (selectedCategory (filters pg))
                (if JS.strict_eq_opt (selectedCategory (filters pg)) name
                 then None else Some name) = false).
  { destruct (selectedCategory (filters pg)) as [c|]; cbn; [|reflexivity].
    destruct (String.eqb c name) eqn:Q; cbn; [reflexivity | exact Q]. }
  now rewrite E.
Qed.

Lemma price_text_changes (text : string) (pg : Page) :
  (pr_ref (priceRange (filters pg)) < next_ref pg)%nat ->
  JS.parseInt text <> None ->
  changes (TypeMinPrice text) pg = true /\ changes (TypeMaxPrice text) pg = true.
Proof.
  intros Fresh N.
  assert (Q : Nat.eqb (pr_ref (priceRange (filters pg))) (next_ref pg) = false)
    by (apply Nat.eqb_neq; lia).
  unfold changes, deps_same. cbn [handle].
  unfold onMinPriceChange, onMaxPriceChange.
  destruct (JS.parseInt text) as [v|]; [|now elim N].
  cbn. rewrite Q. now rewrite !Bool.andb_false_r.
Qed.

(** X4. A click on a category card, a click on reset and price text that
    parses to a number always count as a change, whatever the values: each
    cancels the pending timer and arms one due 300 time units later, also
    when the price typed is the price shown or the filters are the defaults
    already. *)
Theorem busy_actions_always_rearm (a : Action) (pg : Page) :
  reachable pg -> busy_action a ->
  changes a pg = true /\
  timers (dispatch a pg) =
    [mkTimer (next_timer pg) (now pg + 300) (filters (dispatch a pg))].
Proof.
  intros R B. destruct (reachable_well_formed pg R) as [P Fresh].
  assert (C : changes a pg = true).
  { destruct a as [text| | |name|lo hi|text|text|c|i|]; cbn [busy_action] in B;
      try contradiction.
    - apply category_click_changes.
    - now apply price_text_changes.
    - now apply price_text_changes.
    - apply reset_is_a_change. now split. }
  split; [exact C|].
  rewrite (dispatch_change a pg C).
  assert (Ph : one_pending (handle a pg) = true) by now rewrite one_pending_handle.
  destruct (effect_timers _ Ph) as [T _].
  destruct (effect_frame (handle a pg)) as (F & _).
  destruct (handle_host a pg) as (_ & _ & Hn & _ & Ht & _).
  rewrite T, F, Ht, Hn. reflexivity.
Qed.

Lemma busy_actions_always_rearm_witness :
  reachable (mount 0) /\ busy_action (TypeMinPrice "0") /\
  pr_lo (priceRange (filters (dispatch (TypeMinPrice "0") (mount 0)))) = 0 /\
  changes (TypeMinPrice "0") (mount 0) = true.
Proof.
  split; [apply reach_mount|]. split; [discriminate|]. split; [reflexivity|].
  apply (busy_actions_always_rearm (TypeMinPrice "0") (mount 0)).
  - apply reach_mount.
  - discriminate.
Defined.

(** ** Bursts of changes *)

Lemma run_user_cons (t : Z) (a : Action) (rest : list (Z * Action)) (pg : Page) :
  run (user_schedule ((t, a) :: rest)) pg =
  run (user_schedule rest) (at_time t (User a) pg).
Proof. reflexivity. Qed.

Lemma burst_fires_once (rest : list (Z * Action)) :
  forall (t : Z) (a : Action) (pg : Page) (T : Z),
    one_pending pg = true -> now pg <= t ->
    burst t a rest pg -> last_time t rest + 300 <= T ->
    fetches (advance_to T (run (user_schedule ((t, a) :: rest)) pg)) =
      fetches (advance_to t pg) ++
      [(last_time t rest + 300,
        build_params (filters (run (user_schedule ((t, a) :: rest)) pg)))].
Proof.
  induction rest as [|[t' a'] rest IH]; intros t a pg T P L B LT.
  - destruct B as [C _]. cbn [last_time] in *. rewrite run_user_cons. cbn [user_schedule map run].
    destruct (after_change pg a t P L C) as (Pa & Na & Ta & Ra).
    destruct (debounce_fires _ _ T Ta) as [F _].
    { cbn [tm_due]. rewrite Na. lia. }
    { cbn [tm_due]. lia. }
    cbn [tm_due tm_env] in F. rewrite F. unfold fetches. now rewrite Ra.
  - destruct B as [C [Gap B]]. cbn [last_time] in *.
    rewrite run_user_cons.
    destruct (after_change pg a t P L C) as (Pa & Na & Ta & Ra).
    destruct (waiting_is_quiet _ _ t' Ta) as (W & _).
    { cbn [tm_due]. lia. }
    rewrite (IH t' a' (at_time t (User a) pg) T Pa); try assumption.
    + unfold fetches. now rewrite W, Ra.
    + rewrite Na. lia.
Qed.

(** X5. However many changes follow one another, each less than 300 time
    units after the one before, the whole burst issues exactly one request:
    300 time units after the last change, with the filters as the last
    change left them. *)
Theorem burst_fetches_once (pg : Page) (t : Z) (a : Action)
        (rest : list (Z * Action)) (T : Z) :
  reachable pg -> now pg <= t ->
  burst t a rest pg -> last_time t rest + 300 <= T ->
  let final := run (user_schedule ((t, a) :: rest)) pg in
  fetches (advance_to T final) =
    fetches (advance_to t pg) ++ [(last_time t rest + 300, build_params (filters final))].
Proof.
  intros R L B LT final. destruct (reachable_well_formed pg R) as [P _].
  now apply burst_fires_once.
Qed.

Lemma burst_fetches_once_witness :
  reachable (mount 0) /\ now (mount 0) <= 10 /\
  burst 10 (TypeSearch "s") [(200, ClickStock ChipInStock); (450, ClickReset)] (mount 0) /\
  last_time 10 [(200, ClickStock ChipInStock); (450, ClickReset)] + 300 <= 5000 /\
  fetches (advance_to 5000
             (run (user_schedule [(10, TypeSearch "s"); (200, ClickStock ChipInStock);
                                  (450, ClickReset)]) (mount 0))) =
    fetches (advance_to 10 (mount 0)) ++
    [(last_time 10 [(200, ClickStock ChipInStock); (450, ClickReset)] + 300,
      build_params
        (filters (run (user_schedule [(10, TypeSearch "s"); (200, ClickStock ChipInStock);
                                      (450, ClickReset)]) (mount 0))))].
Proof.
  assert (B : burst 10 (TypeSearch "s")
                [(200, ClickStock ChipInStock); (450, ClickReset)] (mount 0)).
  { cbn [burst]. split; [reflexivity|]. split; [lia|].
    split; [reflexivity|]. split; [lia|]. split; [reflexivity | exact I]. }
  assert (N : now (mount 0) <= 10) by (simpl; lia).
  assert (L : last_time 10 [(200, ClickStock ChipInStock); (450, ClickReset)] + 300
              <= 5000) by (simpl; lia).
  split; [apply reach_mount|]. split; [exact N|]. split; [exact B|].
  split; [exact L|].
  exact (burst_fetches_once (mount 0) 10 (TypeSearch "s")
           [(200, ClickStock ChipInStock); (450, ClickReset)] 5000
           (reach_mount 0) N B L).
Defined.

(** ** Responses and the products section *)

Lemma settle_inflight (r : nat) (o : Outcome) (pg : Page) :
  is_inflight r pg = true ->
  loading (settle r o pg) = false /\
  products (settle r o pg) =
    match o with
    | Fulfilled data => data
    | Rejected => products pg
    end /\
  filters (settle r o pg) = filters pg.
Proof. intro H. unfold settle. rewrite H. destruct o; repeat split. Qed.

(** X6. Any response clears the loading flag, also the response to an
    older request while a newer request is still unanswered: the spinner
    goes away although a request is in flight. *)
Theorem spinner_cleared_while_pending (pg : Page) (r r' : nat) (o : Outcome) :
  is_inflight r pg = true -> is_inflight r' pg = true -> r <> r' ->
  loading (settle r o pg) = false /\
  is_inflight r' (settle r o pg) = true /\
  products_section (settle r o pg) <> Spinner.
Proof.
  intros H H' N. destruct (settle_inflight r o pg H) as (L & _).
  split; [exact L|]. split; [now rewrite still_inflight|].
  unfold products_section. rewrite L.
  destruct (Nat.eqb (List.length (products (settle r o pg))) 0); discriminate.
Qed.

Lemma spinner_cleared_while_pending_witness :
  is_inflight 0 (advance_to 300 (mount 0)) = true /\
  is_inflight 1 (advance_to 300 (mount 0)) = true /\
  0%nat <> 1%nat /\ loading (advance_to 300 (mount 0)) = true /\
  loading (settle 0 (Fulfilled stale_data) (advance_to 300 (mount 0))) = false /\
  is_inflight 1 (settle 0 (Fulfilled stale_data) (advance_to 300 (mount 0))) = true.
Proof.
  assert (H0 : is_inflight 0 (advance_to 300 (mount 0)) = true) by reflexivity.
  assert (H1 : is_inflight 1 (advance_to 300 (mount 0)) = true) by reflexivity.
  assert (N : 0%nat <> 1%nat) by discriminate.
  destruct (spinner_cleared_while_pending (advance_to 300 (mount 0)) 0 1
              (Fulfilled stale_data) H0 H1 N) as (L & I & _).
  split; [exact H0|]. split; [exact H1|]. split; [exact N|].
  split; [reflexivity|]. split; [exact L | exact I].
Defined.

(** X7. Once a response has arrived the products section shows what the
    page then holds: the data of a successful response, the list from before
    after a failure.  An empty list shows the message for no products, so a
    failed request on a page without products reads like an empty result; a
    list that is not empty shows the selected category, or "All Products"
    when none is selected, and the number of products. *)
Theorem products_section_after_response (pg : Page) (r : nat) (o : Outcome) :
  is_inflight r pg = true ->
  let shown := match o with
               | Fulfilled data => data
               | Rejected => products pg
               end in
  (shown = [] -> products_section (settle r o pg) = NoProductsFound) /\
  (shown <> [] ->
   products_section (settle r o pg) =
     Grid (match selectedCategory (filters pg) with
           | Some (String c s) => String c s
           | _ => "All Products"
           end)
          (JS.string_of_number (Z.of_nat (List.length shown)) ++ " items available")%string
          shown).
Proof.
  intros H shown. destruct (settle_inflight r o pg H) as (L & P & F).
  fold shown in P. unfold products_section. rewrite L, P, F. split; intro E.
  - now rewrite E.
  - destruct shown as [|x l]; [now elim E|]. cbn [List.length Nat.eqb].
    destruct (selectedCategory (filters pg)) as [[|c s]|]; reflexivity.
Qed.

Lemma products_section_after_response_witness :
  is_inflight 0 (mount 0) = true /\ products (mount 0) = [] /\
  products_section (settle 0 Rejected (mount 0)) = NoProductsFound /\
  products_section (settle 0 (Fulfilled fresh_data) (mount 0)) =
    Grid "All Products" "1 items available" fresh_data.
Proof.
  assert (H : is_inflight 0 (mount 0) = true) by reflexivity.
  split; [exact H|]. split; [reflexivity|]. split.
  - apply (proj1 (products_section_after_response (mount 0) 0 Rejected H)). reflexivity.
  - apply (proj2 (products_section_after_response (mount 0) 0 (Fulfilled fresh_data) H)).
    discriminate.
Defined.

(** ** Highlights *)

(** X8. A click on a category card flips the highlight of that card and
    leaves no card of another name highlighted; two cards of different names
    are never highlighted together. *)
Theorem category_highlight_exclusive (pg : Page) (name other : string) :
  card_active name (dispatch (ClickCategory name) pg) = negb (card_active name pg) /\
  (other <> name -> card_active other (dispatch (ClickCategory name) pg) = false) /\
  (card_active name pg = true -> card_active other pg = true -> name = other).
Proof.
  unfold card_active. rewrite filters_dispatch. cbn [handle].
  unfold onCategoryClick. cbn.
  destruct (selectedCategory (filters pg)) as [c|]; cbn.
  - repeat split.
    + destruct (String.eqb_spec c name); cbn; [reflexivity|].
      now rewrite String.eqb_refl.
    + intro N. destruct (String.eqb_spec c name); cbn; [reflexivity|].
      destruct (String.eqb_spec name other); [subst; now elim N | reflexivity].
    + intros A B. apply String.eqb_eq in A, B. congruence.
  - repeat split; try discriminate.
    + now rewrite String.eqb_refl.
    + intro N. destruct (String.eqb_spec name other); [subst; now elim N | reflexivity].
Qed.

Lemma category_highlight_exclusive_witness :
  "Saws" <> "Tools" /\
  card_active "Saws" (dispatch (ClickCategory "Tools")
                        (dispatch (ClickCategory "Saws") (mount 0))) = false.
Proof.
  split; [discriminate|].
  apply (proj1 (proj2 (category_highlight_exclusive
                         (dispatch (ClickCategory "Saws") (mount 0)) "Tools" "Saws"))).
  discriminate.
Defined.

Lemma reachable_values (pg : Page) :
  reachable pg ->
  stock_value_ok (stockStatus (filters pg)) /\ sort_value_ok (sortBy (filters pg)).
Proof.
  induction 1 as [t0|t e pg R IH|t pg R IH].
  - split; [now left | now left].
  - unfold at_time. destruct e as [a|r o]; cbn [step].
    + rewrite filters_dispatch. apply handle_keeps_values.
      now rewrite filters_advance.
    + now rewrite filters_settle, filters_advance.
  - now rewrite filters_advance.
Qed.

(** X9. In every state the page can reach exactly one availability chip is
    highlighted, the one whose value the stock-status cell holds; after a
    click on a chip it is that chip. *)
Theorem one_chip_highlighted (pg : Page) :
  reachable pg ->
  (forall c, chip_active c pg = true <-> stockStatus (filters pg) = chip_value c) /\
  (exists c, chip_active c pg = true /\ forall c', chip_active c' pg = true -> c' = c) /\
  (forall c, chip_active c (dispatch (ClickStock c) pg) = true).
Proof.
  intro R.
  destruct (reachable_values pg R) as [V _].
  assert (Iff : forall c, chip_active c pg = true <->
                          stockStatus (filters pg) = chip_value c).
  { intro c. unfold chip_active.
    destruct V as [E|[E|[E|E]]]; rewrite E; destruct c; cbn;
      split; intro H; try reflexivity; try discriminate. }
  split; [exact Iff|]. split.
  - assert (Ex : exists c, stockStatus (filters pg) = chip_value c).
    { destruct V as [E|[E|[E|E]]]; rewrite E;
        [exists ChipAll | exists ChipInStock | exists ChipLowStock
         | exists ChipOutOfStock]; reflexivity. }
    destruct Ex as [c E]. exists c. split; [now apply Iff|].
    intros c' A. apply Iff in A. rewrite E in A.
    destruct c, c'; cbn in A; try discriminate; reflexivity.
  - intro c. unfold chip_active. rewrite filters_dispatch. destruct c; reflexivity.
Qed.

Lemma one_chip_highlighted_witness :
  reachable (mount 0) /\ chip_active ChipAll (mount 0) = true /\
  chip_active ChipLowStock (dispatch (ClickStock ChipLowStock) (mount 0)) = true.
Proof.
  split; [apply reach_mount|]. split; [reflexivity|].
  apply (one_chip_highlighted (mount 0) (reach_mount 0)).
Defined.

(** ** The store-hours banner, its label and its hours *)

Section StoreHoursMore.

Variable utcOffset : Z -> Z.

Lemma day_name_listed (now : Z) : In (day_name (getDay utcOffset now)) days.
Proof.
  pose proof (getDay_range utcOffset now) as R.
  assert (D : getDay utcOffset now = 0 \/ getDay utcOffset now = 1 \/
              getDay utcOffset now = 2 \/ getDay utcOffset now = 3 \/
              getDay utcOffset now = 4 \/ getDay utcOffset now = 5 \/
              getDay utcOffset now = 6) by lia.
  repeat (destruct D as [D|D]; [rewrite D; cbn; auto 8|]).
  rewrite D; cbn; auto 8.
Qed.

(** X10. The index [now.getDay()] is always within the seven day names:
    the banner label is "CLOSED" or names a day of the week, on the desktop
    after "Store Hours - ", and is never "undefined". *)
Theorem banner_label_names_a_day (now : Z) :
  In (day_name (getDay utcOffset now)) days /\
  (desktop_label utcOffset now = "CLOSED" \/
   exists d, In d days /\ desktop_label utcOffset now = ("Store Hours - " ++ d)%string) /\
  (mobile_label utcOffset now = "CLOSED" \/ In (mobile_label utcOffset now) days).
Proof.
  pose proof (day_name_listed now) as I.
  split; [exact I|]. unfold desktop_label, mobile_label.
  destruct (((getDay utcOffset now =? 0) && (getHours utcOffset now >=? 8)
             && (getHours utcOffset now <? 14))
            || (negb (getDay utcOffset now =? 0) && (getHours utcOffset now >=? 8)
                && (getHours utcOffset now <? 20))).
  - split; right; [|exact I]. exists (day_name (getDay utcOffset now)). now split.
  - split; now left.
Qed.

(** X11. The hours the banner prints are the hours its open state follows:
    on a Sunday it prints "8:00 AM - 2:00 PM" and the dot is green exactly
    from 8 up to 14, on any other day it prints "8:00 AM - 8:00 PM" and the
    dot is green exactly from 8 up to 20; the desktop and the mobile banner
    print the same. *)
Theorem printed_hours_match_rule (now : Z) :
  desktop_hours utcOffset now = mobile_hours utcOffset now /\
  ((getDay utcOffset now = 0 /\
    desktop_hours utcOffset now = "8:00 AM - 2:00 PM" /\
    (desktop_dot utcOffset now = "bg-green-500 animate-pulse" <->
     8 <= getHours utcOffset now < 14)) \/
   (getDay utcOffset now <> 0 /\
    desktop_hours utcOffset now = "8:00 AM - 8:00 PM" /\
    (desktop_dot utcOffset now = "bg-green-500 animate-pulse" <->
     8 <= getHours utcOffset now < 20))).
Proof.
  split; [reflexivity|].
  unfold desktop_hours, desktop_dot. rewrite Z.geb_leb.
  destruct (Z.eqb_spec (getDay utcOffset now) 0) as [E|N]; [left | right];
    (split; [assumption|]); (split; [reflexivity|]); cbn [negb andb orb].
  - rewrite Bool.orb_false_r.
    destruct (Z.leb_spec 8 (getHours utcOffset now)) as [L8|L8],
             (Z.ltb_spec (getHours utcOffset now) 14) as [L14|L14]; cbn;
      split; intro Q; try reflexivity; try discriminate; lia.
  - destruct (Z.leb_spec 8 (getHours utcOffset now)) as [L8|L8],
             (Z.ltb_spec (getHours utcOffset now) 20) as [L20|L20]; cbn;
      split; intro Q; try reflexivity; try discriminate; lia.
Qed.

End StoreHoursMore.

(** ** The price inputs read back what they show *)

Lemma read_digit_step (k : Z) (c : ascii) (r : string) (acc : option Z) :
  JS.digit_value c = Some k -> k < 10 ->
  JS.read_digits 10 (String c r) acc =
  JS.read_digits 10 r (Some (match acc with
                             | Some a => a * 10 + k
                             | None => k
                             end)).
Proof.
  intros D L. cbn [JS.read_digits]. rewrite D.
  destruct (Z.ltb_spec k 10); [reflexivity | lia].
Qed.

Ltac read_one_digit k :=
  rewrite (read_digit_step k) by (reflexivity || lia).

Lemma read_digits_pos (d : Decimal.uint) :
  forall p : positive,
    JS.read_digits 10 (NilEmpty.string_of_uint d) (Some (Z.pos p)) =
    Some (Z.pos (Pos.of_uint_acc d p)).
Proof.
  induction d as [|d IH|d IH|d IH|d IH|d IH|d IH|d IH|d IH|d IH|d IH]; intro p;
    cbn [NilEmpty.string_of_uint Pos.of_uint_acc]; [reflexivity|..].
  - read_one_digit 0. rewrite <- IH. f_equal. f_equal. lia.
  - read_one_digit 1. rewrite <- IH. f_equal. f_equal. lia.
  - read_one_digit 2. rewrite <- IH. f_equal. f_equal. lia.
  - read_one_digit 3. rewrite <- IH. f_equal. f_equal. lia.
  - read_one_digit 4. rewrite <- IH. f_equal. f_equal. lia.
  - read_one_digit 5. rewrite <- IH. f_equal. f_equal. lia.
  - read_one_digit 6. rewrite <- IH. f_equal. f_equal. lia.
  - read_one_digit 7. rewrite <- IH. f_equal. f_equal. lia.
  - read_one_digit 8. rewrite <- IH. f_equal. f_equal. lia.
  - read_one_digit 9. rewrite <- IH. f_equal. f_equal. lia.
Qed.

Lemma read_digits_zero (d : Decimal.uint) :
  JS.read_digits 10 (NilEmpty.string_of_uint d) (Some 0) =
  Some (Z.of_N (Pos.of_uint d)).
Proof.
  induction d as [|d IH|d IH|d IH|d IH|d IH|d IH|d IH|d IH|d IH|d IH];
    cbn [NilEmpty.string_of_uint Pos.of_uint]; [reflexivity|..].
  - read_one_digit 0. exact IH.
  - read_one_digit 1. apply read_digits_pos.
  - read_one_digit 2. apply read_digits_pos.
  - read_one_digit 3. apply read_digits_pos.
  - read_one_digit 4. apply read_digits_pos.
  - read_one_digit 5. apply read_digits_pos.
  - read_one_digit 6. apply read_digits_pos.
  - read_one_digit 7. apply read_digits_pos.
  - read_one_digit 8. apply read_digits_pos.
  - read_one_digit 9. apply read_digits_pos.
Qed.

Lemma read_digits_start (d : Decimal.uint) :
  d <> Decimal.Nil ->
  JS.read_digits 10 (NilEmpty.string_of_uint d) None = Some (Z.of_N (Pos.of_uint d)).
Proof.
  destruct d as [|d|d|d|d|d|d|d|d|d|d]; intro N; [now elim N|..];
    cbn [NilEmpty.string_of_uint Pos.of_uint].
  - read_one_digit 0. apply read_digits_zero.
  - read_one_digit 1. apply read_digits_pos.
  - read_one_digit 2. apply read_digits_pos.
  - read_one_digit 3. apply read_digits_pos.
  - read_one_digit 4. apply read_digits_pos.
  - read_one_digit 5. apply read_digits_pos.
  - read_one_digit 6. apply read_digits_pos.
  - read_one_digit 7. apply read_digits_pos.
  - read_one_digit 8. apply read_digits_pos.
  - read_one_digit 9. apply read_digits_pos.
Qed.

(** Decimal digits carry no white space, no sign and no hexadecimal prefix. *)
Lemma digits_need_no_stripping (d : Decimal.uint) :
  JS.trim_start (NilEmpty.string_of_uint d) = NilEmpty.string_of_uint d /\
  JS.strip_sign (NilEmpty.string_of_uint d) = (1, NilEmpty.string_of_uint d) /\
  JS.strip_hex_prefix (NilEmpty.string_of_uint d) = (10, NilEmpty.string_of_uint d).
Proof.
  destruct d as [|d|d|d|d|d|d|d|d|d|d]; repeat split.
  destruct d; reflexivity.
Qed.

Lemma parseInt_digits (d : Decimal.uint) :
  d <> Decimal.Nil ->
  JS.parseInt (NilEmpty.string_of_uint d) = Some (Z.of_N (Pos.of_uint d)) /\
  JS.parseInt (String "-" (NilEmpty.string_of_uint d)) = Some (- Z.of_N (Pos.of_uint d)).
Proof.
  intro N. destruct (digits_need_no_stripping d) as (T & S & H).
  split; unfold JS.parseInt.
  - rewrite T, S. cbn beta iota. rewrite H. cbn beta iota.
    rewrite (read_digits_start d N). f_equal. lia.
  - change (JS.trim_start (String "-" (NilEmpty.string_of_uint d)))
      with (String "-" (NilEmpty.string_of_uint d)).
    change (JS.strip_sign (String "-" (NilEmpty.string_of_uint d)))
      with (-1, NilEmpty.string_of_uint d).
    cbn beta iota. rewrite H. cbn beta iota.
    rewrite (read_digits_start d N). f_equal; lia.
Qed.

(** What the page prints for a number, [parseInt] reads back. *)
Lemma parseInt_string_of_number (n : Z) :
  JS.parseInt (JS.string_of_number n) = Some n.
Proof.
  unfold JS.string_of_number. destruct n as [|p|p]; [reflexivity|..];
    cbn [Z.to_int NilZero.string_of_int];
    pose proof (DecimalPos.Unsigned.to_uint_nonnil p) as N;
    pose proof (DecimalPos.Unsigned.of_to p) as R;
    destruct (parseInt_digits _ N) as [Hp Hn]; rewrite R in Hp, Hn;
    unfold NilZero.string_of_uint;
    destruct (Pos.to_uint p); try (now elim N); assumption.
Qed.

(** X12. The price inputs read back the numbers the page prints: typing
    the text of a number between 0 and 10000 into the min input stores that
    number, capped by the current max, and into the max input stores it,
    raised to the current min; typing back the value an input shows leaves
    both bounds as they are. *)
Theorem price_inputs_read_back (pg : Page) (v : Z) :
  range_ok (priceRange (filters pg)) -> 0 <= v <= 10000 ->
  let lo := pr_lo (priceRange (filters pg)) in
  let hi := pr_hi (priceRange (filters pg)) in
  let typed_min t := priceRange (filters (dispatch (TypeMinPrice (JS.string_of_number t)) pg)) in
  let typed_max t := priceRange (filters (dispatch (TypeMaxPrice (JS.string_of_number t)) pg)) in
  pr_lo (typed_min v) = Z.min v hi /\ pr_hi (typed_min v) = hi /\
  pr_lo (typed_max v) = lo /\ pr_hi (typed_max v) = Z.max lo v /\
  pr_lo (typed_min lo) = lo /\ pr_hi (typed_min lo) = hi /\
  pr_lo (typed_max hi) = lo /\ pr_hi (typed_max hi) = hi.
Proof.
  intros (H0 & H1 & H2) V lo hi typed_min typed_max.
  assert (Min : forall t, typed_min t = mkRange (next_ref pg) (Z.max 0 (Z.min t hi)) hi).
  { intro t. unfold typed_min. rewrite filters_dispatch. cbn [handle].
    apply min_handler_range, parseInt_string_of_number. }
  assert (Max : forall t, typed_max t = mkRange (next_ref pg) lo (Z.max lo (Z.min t 10000))).
  { intro t. unfold typed_max. rewrite filters_dispatch. cbn [handle].
    apply max_handler_range, parseInt_string_of_number. }
  rewrite !Min, !Max. cbn [pr_lo pr_hi]. fold lo hi in H0, H1, H2.
  repeat split; lia.
Qed.

Lemma price_inputs_read_back_witness :
  range_ok (priceRange (filters (mount 0))) /\ 0 <= 2500 <= 10000 /\
  JS.string_of_number 2500 = "2500" /\
  pr_lo (priceRange (filters (dispatch (TypeMinPrice "2500") (mount 0)))) = 2500.
Proof.
  assert (H : range_ok (priceRange (filters (mount 0)))).
  { unfold range_ok. simpl. lia. }
  assert (V : 0 <= 2500 <= 10000) by lia.
  destruct (price_inputs_read_back (mount 0) 2500 H V) as (L & _).
  split; [exact H|]. split; [exact V|]. split; [reflexivity | exact L].
Defined.

(** ** The URLs *)

Lemma count_char_app (c : ascii) (a b : string) :
  count_char c (a ++ b)%string = (count_char c a + count_char c b)%nat.
Proof. induction a as [|x a IH]; simpl; [reflexivity | rewrite IH; lia]. Qed.

Lemma all_chars_app (ok : ascii -> bool) (a b : string) :
  all_chars ok (a ++ b)%string = all_chars ok a && all_chars ok b.
Proof.
  induction a as [|x a IH]; simpl; [reflexivity|].
  now rewrite IH, Bool.andb_assoc.
Qed.

Lemma all_chars_count (ok : ascii -> bool) (c : ascii) (s : string) :
  all_chars ok s = true -> ok c = false -> count_char c s = 0%nat.
Proof.
  intros A N. induction s as [|x s IH]; [reflexivity|].
  simpl in A |- *. apply Bool.andb_true_iff in A as [Ax As].
  destruct (Ascii.eqb_spec x c) as [->|_]; [congruence|].
  now rewrite IH.
Qed.

Lemma form_encode_byte_output (c : ascii) :
  all_chars form_output (form_encode_byte c) = true.
Proof. destruct c as [[] [] [] [] [] [] [] []]; reflexivity. Qed.

Lemma form_encode_output (s : string) :
  all_chars form_output (form_encode s) = true.
Proof.
  induction s as [|c s IH]; [reflexivity|]. cbn [form_encode].
  now rewrite all_chars_app, form_encode_byte_output, IH.
Qed.

Lemma pair_text_counts (kv : string * string) :
  count_char "=" (pair_text kv) = 1%nat /\ count_char "&" (pair_text kv) = 0%nat.
Proof.
  unfold pair_text. rewrite !count_char_app.
  rewrite !(all_chars_count form_output _ _ (form_encode_output _)) by reflexivity.
  split; reflexivity.
Qed.

Lemma toString_counts (p : Params) :
  count_char "=" (toString p) = List.length p /\
  count_char "&" (toString p) = Nat.pred (List.length p).
Proof.
  induction p as [|kv [|kv' rest] IH].
  - split; reflexivity.
  - cbn [toString List.length Nat.pred]. apply pair_text_counts.
  - destruct IH as [IHe IHa]. destruct (pair_text_counts kv) as [Pe Pa].
    change (toString (kv :: kv' :: rest))
      with (pair_text kv ++ "&" ++ toString (kv' :: rest))%string.
    rewrite !count_char_app, Pe, Pa, IHe, IHa. cbn. split; lia.
Qed.

(** X13. Whatever the filters hold, the query string of the products URL
    has one "=" for each parameter and "&" only between parameters, two to
    six parameters in all, and otherwise only letters, digits, [* - . _],
    "+" and percent escapes: text typed into the search box, or a category
    name, cannot add a parameter or cut one short. *)
Theorem query_string_structure (API : string) (f : Filters) :
  let q := toString (build_params f) in
  products_url API f = (API ++ "/products?" ++ q)%string /\
  count_char "=" q = List.length (build_params f) /\
  S (count_char "&" q) = List.length (build_params f) /\
  (2 <= List.length (build_params f) <= 6)%nat /\
  all_chars (fun c => form_output c || Ascii.eqb c "=" || Ascii.eqb c "&") q = true.
Proof.
  intro q. destruct (toString_counts (build_params f)) as [Ce Ca]. fold q in Ce, Ca.
  assert (Len : (2 <= List.length (build_params f) <= 6)%nat).
  { by_cases_on_filters f; cbn; lia. }
  split; [reflexivity|]. split; [exact Ce|]. split; [rewrite Ca; lia|].
  split; [exact Len|].
  subst q. clear. generalize (build_params f) as p.
  assert (Pair : forall kv,
             all_chars (fun c => form_output c || Ascii.eqb c "=" || Ascii.eqb c "&")
                       (pair_text kv) = true).
  { intro kv. unfold pair_text. rewrite !all_chars_app.
    assert (W : forall s, all_chars (fun c => form_output c || Ascii.eqb c "="
                                              || Ascii.eqb c "&") (form_encode s) = true).
    { induction s as [|c s IH]; [reflexivity|]. cbn [form_encode].
      rewrite all_chars_app, IH, Bool.andb_true_r.
      destruct c as [[] [] [] [] [] [] [] []]; reflexivity. }
    now rewrite !W. }
  induction p as [|kv [|kv' rest] IH]; [reflexivity | apply Pair |].
  change (toString (kv :: kv' :: rest))
    with (pair_text kv ++ "&" ++ toString (kv' :: rest))%string.
  now rewrite !all_chars_app, Pair, IH.
Qed.

(** *** The order link *)

(** "a b&c", U+00E9, U+20AC, the pair D83D DE00 (U+1F600), and surrogates
    without their partner. *)
Example encodeURIComponent_samples :
  encodeURIComponent (units "a b&c=d/'!") = Some "a%20b%26c%3Dd%2F'!" /\
  encodeURIComponent [233] = Some "%C3%A9" /\
  encodeURIComponent [8364] = Some "%E2%82%AC" /\
  encodeURIComponent [55357; 56832] = Some "%F0%9F%98%80" /\
  encodeURIComponent [55357] = None /\
  encodeURIComponent [56832; 55357] = None /\
  encodeURIComponent [55357; 65] = None.
Proof. repeat split; reflexivity. Qed.

(** Induction that follows the encoder: one code unit, or a pair, at a time. *)
Lemma units_ind2 (P : JSString -> Prop) :
  P [] -> (forall c, P [c]) ->
  (forall c d r, P r -> P (d :: r) -> P (c :: d :: r)) ->
  forall s, P s.
Proof.
  intros H0 H1 H2 s.
  assert (B : P s /\ forall c, P (c :: s)).
  { induction s as [|d r [IHr IHc]].
    - split; [exact H0 | exact H1].
    - split; [apply IHc|]. intro c. apply H2; [exact IHr | apply IHc]. }
  apply B.
Qed.

Lemma unreserved_not_surrogate (u : Z) :
  unit_unreserved u = true -> is_lead u = false /\ is_trail u = false.
Proof.
  unfold unit_unreserved, is_lead, is_trail. intro H.
  apply Bool.andb_true_iff in H as [H _]. apply Bool.andb_true_iff in H as [_ H].
  apply Z.ltb_lt in H.
  split; apply Bool.andb_false_iff; left; apply Z.leb_gt; lia.
Qed.

Lemma prepend_none (a : string) (r : option string) :
  prepend a r = None <-> r = None.
Proof. destruct r; simpl; split; intro H; try discriminate; reflexivity. Qed.

(** The encoder throws exactly on a string with an unpaired surrogate. *)
Lemma encode_throws_iff (s : JSString) :
  encodeURIComponent s = None <-> has_unpaired s = true.
Proof.
  induction s as [|c|c d r IHr IHd] using units_ind2.
  - simpl. split; discriminate.
  - cbn [encodeURIComponent has_unpaired].
    destruct (unit_unreserved c) eqn:U.
    + destruct (unreserved_not_surrogate c U) as [L T]. rewrite L, T.
      simpl. split; discriminate.
    + destruct (is_trail c); [split; reflexivity|].
      destruct (is_lead c); [split; reflexivity|]. simpl. split; discriminate.
  - change (encodeURIComponent (c :: d :: r)) with
      (if unit_unreserved c
       then prepend (String (unit_char c) EmptyString) (encodeURIComponent (d :: r))
       else if is_trail c then None
       else if is_lead c
            then (if is_trail d
                  then prepend (percent_octets (utf8_octets (pair_code_point c d)))
                               (encodeURIComponent r)
                  else None)
            else prepend (percent_octets (utf8_octets c)) (encodeURIComponent (d :: r))).
    change (has_unpaired (c :: d :: r)) with
      (if is_trail c then true
       else if is_lead c then (if is_trail d then has_unpaired r else true)
       else has_unpaired (d :: r)).
    destruct (unit_unreserved c) eqn:U.
    + destruct (unreserved_not_surrogate c U) as [L T]. rewrite L, T.
      now rewrite prepend_none.
    + destruct (is_trail c); [split; reflexivity|].
      destruct (is_lead c).
      * destruct (is_trail d); [now rewrite prepend_none | split; reflexivity].
      * now rewrite prepend_none.
Qed.

Lemma percent_output (b : ascii) : all_chars uri_output (percent b) = true.
Proof. destruct b as [[] [] [] [] [] [] [] []]; reflexivity. Qed.

Lemma percent_octets_output (l : list Z) :
  all_chars uri_output (percent_octets l) = true.
Proof.
  induction l as [|o l IH]; [reflexivity|]. cbn [percent_octets].
  now rewrite all_chars_app, percent_output, IH.
Qed.

Lemma prepend_output (a : string) (r : option string) (out : string) :
  all_chars uri_output a = true ->
  (forall o, r = Some o -> all_chars uri_output o = true) ->
  prepend a r = Some out -> all_chars uri_output out = true.
Proof.
  intros A R. destruct r as [o|]; simpl; intro E; [|discriminate].
  inversion E; subst. now rewrite all_chars_app, A, (R o eq_refl).
Qed.

(** What the encoder returns holds unreserved characters and percent
    escapes only. *)
Lemma encode_output (s : JSString) :
  forall out, encodeURIComponent s = Some out -> all_chars uri_output out = true.
Proof.
  induction s as [|c|c d r IHr IHd] using units_ind2; intros out E.
  - inversion E. reflexivity.
  - cbn [encodeURIComponent] in E.
    destruct (unit_unreserved c) eqn:U.
    + inversion E; subst. cbn [prepend all_chars String.append].
      unfold unit_unreserved in U. apply Bool.andb_true_iff in U as [_ U].
      unfold uri_output. now rewrite U.
    + destruct (is_trail c); [discriminate|].
      destruct (is_lead c); [discriminate|].
      inversion E; subst. cbn [prepend]. rewrite all_chars_app.
      now rewrite percent_octets_output.
  - change (encodeURIComponent (c :: d :: r)) with
      (if unit_unreserved c
       then prepend (String (unit_char c) EmptyString) (encodeURIComponent (d :: r))
       else if is_trail c then None
       else if is_lead c
            then (if is_trail d
                  then prepend (percent_octets (utf8_octets (pair_code_point c d)))
                               (encodeURIComponent r)
                  else None)
            else prepend (percent_octets (utf8_octets c)) (encodeURIComponent (d :: r)))
      in E.
    destruct (unit_unreserved c) eqn:U.
    + apply (prepend_output _ _ _) with (3 := E); [|exact IHd].
      unfold unit_unreserved in U. apply Bool.andb_true_iff in U as [_ U].
      cbn [all_chars]. unfold uri_output. now rewrite U.
    + destruct (is_trail c); [discriminate|].
      destruct (is_lead c).
      * destruct (is_trail d); [|discriminate].
        apply (prepend_output _ _ _) with (3 := E);
          [apply percent_octets_output | exact IHr].
      * apply (prepend_output _ _ _) with (3 := E);
          [apply percent_octets_output | exact IHd].
Qed.

Lemma ascii_unit_plain (c : ascii) :
  is_lead (Z.of_nat (nat_of_ascii c)) = false /\
  is_trail (Z.of_nat (nat_of_ascii c)) = false.
Proof. destruct c as [[] [] [] [] [] [] [] []]; split; reflexivity. Qed.

Lemma has_unpaired_after_text (text : string) (s : JSString) :
  has_unpaired (units text ++ s) = has_unpaired s.
Proof.
  induction text as [|c text IH]; [reflexivity|].
  cbn [units List.app has_unpaired].
  destruct (ascii_unit_plain c) as [L T]. now rewrite L, T.
Qed.

(** A unit that is no surrogate keeps the two sides of a string apart. *)
Lemma has_unpaired_split (a : JSString) (c : Z) (b : JSString) :
  is_lead c = false -> is_trail c = false ->
  has_unpaired (a ++ c :: b) = has_unpaired a || has_unpaired (c :: b).
Proof.
  intros L T. induction a as [|x|x d r IHr IHd] using units_ind2.
  - reflexivity.
  - cbn [List.app].
    change (has_unpaired (x :: c :: b)) with
      (if is_trail x then true
       else if is_lead x then (if is_trail c then has_unpaired b else true)
       else has_unpaired (c :: b)).
    cbn [has_unpaired]. rewrite T.
    destruct (is_trail x); [reflexivity|]. destruct (is_lead x); reflexivity.
  - change ((x :: d :: r) ++ c :: b) with (x :: d :: (r ++ c :: b)).
    change (has_unpaired (x :: d :: (r ++ c :: b))) with
      (if is_trail x then true
       else if is_lead x
            then (if is_trail d then has_unpaired (r ++ c :: b) else true)
            else has_unpaired ((d :: r) ++ c :: b)).
    change (has_unpaired (x :: d :: r)) with
      (if is_trail x then true
       else if is_lead x then (if is_trail d then has_unpaired r else true)
       else has_unpaired (d :: r)).
    destruct (is_trail x); [reflexivity|].
    destruct (is_lead x); [|exact IHd].
    destruct (is_trail d); [exact IHr | reflexivity].
Qed.

Lemma order_message_unpaired (name price : JSString) :
  has_unpaired (order_message name price) = has_unpaired name || has_unpaired price.
Proof.
  unfold order_message. rewrite has_unpaired_after_text.
  change (units " - $" ++ price) with (32 :: 45 :: 32 :: 36 :: price).
  rewrite has_unpaired_split by reflexivity. reflexivity.
Qed.

(** X14. The order handler opens WhatsApp for the shop's number in a new
    tab unless the product's name or the text of its price holds a surrogate
    without its partner: then [encodeURIComponent] throws and no window is
    opened.  When the window is opened, the text parameter of its URL holds
    only letters, digits, [- _ . ! ~ * ' ( )] and percent escapes: no "&",
    "#", "=", "?", "+" or space of a product name reaches the URL
    unescaped. *)
Theorem order_link_is_escaped (name price : JSString) :
  (handleOrderWhatsApp name price = None <->
   has_unpaired name = true \/ has_unpaired price = true) /\
  (forall url target,
     handleOrderWhatsApp name price = Some (url, target) ->
     target = "_blank" /\
     exists payload : string,
       url = ("https://wa.me/96171294697?text=" ++ payload)%string /\
       encodeURIComponent (order_message name price) = Some payload /\
       all_chars uri_output payload = true /\
       count_char "&" payload = 0%nat /\ count_char "#" payload = 0%nat /\
       count_char "=" payload = 0%nat /\ count_char "?" payload = 0%nat /\
       count_char "+" payload = 0%nat /\ count_char " " payload = 0%nat).
Proof.
  unfold handleOrderWhatsApp, whatsappUrl. split.
  - rewrite <- Bool.orb_true_iff, <- order_message_unpaired, <- encode_throws_iff.
    destruct (encodeURIComponent (order_message name price));
      split; intro H; try discriminate; reflexivity.
  - intros url target E.
    destruct (encodeURIComponent (order_message name price)) as [payload|] eqn:P;
      [|discriminate].
    inversion E; subst. split; [reflexivity|].
    exists payload. pose proof (encode_output _ _ P) as A.
    split; [reflexivity|]. split; [reflexivity|]. split; [exact A|].
    repeat split; apply (all_chars_count uri_output _ _ A); reflexivity.
Qed.

Lemma order_link_is_escaped_witness :
  has_unpaired [55357] = true /\
  handleOrderWhatsApp [55357] (units "12.5") = None /\
  handleOrderWhatsApp (units "Drill & Co") (units "12.5") =
    Some ("https://wa.me/96171294697?text=Hi!%20I'm%20interested%20in%20ordering%3A%20Drill%20%26%20Co%20-%20%2412.5",
          "_blank") /\
  exists payload : string,
    "https://wa.me/96171294697?text=Hi!%20I'm%20interested%20in%20ordering%3A%20Drill%20%26%20Co%20-%20%2412.5"
    = ("https://wa.me/96171294697?text=" ++ payload)%string /\
    count_char "&" payload = 0%nat.
Proof.
  assert (U : has_unpaired [55357] = true) by reflexivity.
  assert (E : handleOrderWhatsApp (units "Drill & Co") (units "12.5") =
              Some ("https://wa.me/96171294697?text=Hi!%20I'm%20interested%20in%20ordering%3A%20Drill%20%26%20Co%20-%20%2412.5",
                    "_blank")) by reflexivity.
  split; [exact U|]. split.
  - apply (proj1 (order_link_is_escaped [55357] (units "12.5"))). left. exact U.
  - split; [exact E|].
    destruct (proj2 (order_link_is_escaped (units "Drill & Co") (units "12.5")) _ _ E)
      as (_ & payload & Eu & _ & _ & C & _).
    exists payload. split; [exact Eu | exact C].
Defined.

(** ** The test id of a category card *)

Lemma lowered_not_upper (c : ascii) :
  is_upper (if is_upper c then ascii_of_nat (nat_of_ascii c + 32) else c) = false.
Proof. destruct c as [[] [] [] [] [] [] [] []]; reflexivity. Qed.

Lemma toLowerCase_not_upper (s : string) :
  all_chars (fun c => negb (is_upper c)) (toLowerCase s) = true.
Proof.
  induction s as [|c s IH]; [reflexivity|]. cbn [toLowerCase all_chars].
  now rewrite lowered_not_upper, IH.
Qed.

Lemma dash_runs_clean (s : string) :
  forall in_run,
    all_chars (fun c => negb (is_upper c)) s = true ->
    all_chars (fun c => negb (JS.is_white c) && negb (is_upper c)) (dash_runs in_run s) = true.
Proof.
  induction s as [|c s IH]; intros in_run A; [reflexivity|].
  cbn [all_chars] in A. apply Bool.andb_true_iff in A as [Ac As].
  cbn [dash_runs]. destruct (JS.is_white c) eqn:W.
  - destruct in_run; cbn [all_chars]; rewrite ?IH by assumption; reflexivity.
  - cbn [all_chars]. now rewrite W, Ac, IH.
Qed.

Lemma plain_name_kept (s : string) :
  forall in_run,
    all_chars (fun c => negb (JS.is_white c) && negb (is_upper c)) s = true ->
    dash_runs in_run (toLowerCase s) = s.
Proof.
  induction s as [|c s IH]; intros in_run A; [reflexivity|].
  cbn [all_chars] in A. apply Bool.andb_true_iff in A as [Ac As].
  apply Bool.andb_true_iff in Ac as [Wc Uc].
  apply Bool.negb_true_iff in Wc, Uc.
  cbn [toLowerCase dash_runs]. rewrite Uc, Wc. now rewrite IH.
Qed.

(** X15. For a category name of ASCII characters, the test id of its card
    is "category-card-" followed by a slug that has no white space and no
    capital letter; a name that has neither is its own slug. *)
Theorem category_testid_is_clean (name : string) :
  is_ascii name = true ->
  exists slug : string,
    category_testid name = ("category-card-" ++ slug)%string /\
    all_chars (fun c => negb (JS.is_white c) && negb (is_upper c)) slug = true /\
    (all_chars (fun c => negb (JS.is_white c) && negb (is_upper c)) name = true ->
     slug = name).
Proof.
  intros _. exists (dash_runs false (toLowerCase name)).
  split; [reflexivity|]. split.
  - apply dash_runs_clean, toLowerCase_not_upper.
  - apply plain_name_kept.
Qed.

Lemma category_testid_is_clean_witness :
  is_ascii "Power  Tools" = true /\
  category_testid "Power  Tools" = "category-card-power-tools" /\
  exists slug : string,
    category_testid "Power  Tools" = ("category-card-" ++ slug)%string /\
    all_chars (fun c => negb (JS.is_white c) && negb (is_upper c)) slug = true /\
    (all_chars (fun c => negb (JS.is_white c) && negb (is_upper c)) "Power  Tools" = true ->
     slug = "Power  Tools").
Proof.
  split; [reflexivity|]. split; [reflexivity|].
  apply (category_testid_is_clean "Power  Tools"). reflexivity.
Defined.

(** ** Responses never lead to requests *)

(** X16. No response, successful or not, touches the filters, arms or
    cancels a timer or issues a request, and the requests the page issues
    from then on are those it would have issued without it: showing
    products never causes a refetch. *)
Theorem responses_never_refetch (pg : Page) (r : nat) (o : Outcome) :
  filters (settle r o pg) = filters pg /\
  timers (settle r o pg) = timers pg /\
  debounce (settle r o pg) = debounce pg /\
  requests (settle r o pg) = requests pg /\
  forall T, requests (advance_to T (settle r o pg)) = requests (advance_to T pg).
Proof.
  split; [apply filters_settle|].
  assert (E : timers (settle r o pg) = timers pg /\
              debounce (settle r o pg) = debounce pg /\
              requests (settle r o pg) = requests pg).
  { unfold settle. destruct (is_inflight r pg), o; repeat split. }
  destruct E as (T & D & Rq). repeat split; try assumption.
  intro T'. apply (same_schedule_advance T' _ pg (same_schedule_settle r o pg)).
Qed.

(** X17. When the backend is down as the page loads, both initial
    requests fail: the page raises the same error notification twice, holds
    no products, has stopped loading and shows the message for no products,
    whether the first failure comes before or after the second request. *)
Theorem backend_down_on_load (t0 t1 t2 : Z) :
  t0 <= t1 -> t1 <= t2 -> t0 + 300 <= t2 ->
  let pg := run [(t1, Response 0 Rejected); (t2, Response 1 Rejected)] (mount t0) in
  toasts pg = [error_toast; error_toast] /\
  products pg = [] /\ loading pg = false /\ inflight pg = [] /\
  products_section pg = NoProductsFound /\
  fetches pg = [(t0, default_params); (t0 + 300, default_params)].
Proof.
  intros L01 L12 L2 pg. subst pg. cbn [run]. unfold at_time. cbn [step].
  assert (E : timers (mount t0) = [mkTimer 0 (t0 + 300) (default_filters 0)])
    by reflexivity.
  destruct (Z.lt_ge_cases t1 (t0 + 300)) as [Early|Late].
  - rewrite (advance_early t1 (mount t0) _ E) by (cbn [tm_due]; exact Early).
    set (s1 := settle 0 Rejected (with_now (Z.max (now (mount t0)) t1) (mount t0))).
    assert (E1 : timers s1 = [mkTimer 0 (t0 + 300) (default_filters 0)])
      by reflexivity.
    rewrite (advance_fires t2 s1 _ E1) by (cbn [tm_due]; exact L2).
    cbn. rewrite Z.max_r by lia. repeat split.
  - rewrite (advance_fires t1 (mount t0) _ E) by (cbn [tm_due]; exact Late).
    set (s1 := settle 0 Rejected _).
    assert (E1 : timers s1 = []) by reflexivity.
    rewrite (advance_idle t2 s1 E1).
    cbn. rewrite Z.max_r by lia. repeat split.
Qed.

Lemma backend_down_on_load_witness :
  0 <= 120 /\ 120 <= 900 /\ 0 + 300 <= 900 /\
  toasts (run [(120, Response 0 Rejected); (900, Response 1 Rejected)] (mount 0)) =
    ["Failed to load products"; "Failed to load products"].
Proof.
  assert (A : 0 <= 120) by lia. assert (B : 120 <= 900) by lia.
  assert (C : 0 + 300 <= 900) by lia.
  destruct (backend_down_on_load 0 120 900 A B C) as (T & _).
  split; [exact A|]. split; [exact B|]. split; [exact C | exact T].
Defined.
